(** * VEOGEN: the generation orchestration core

    A shallow embedding of the state logic of the Veo Studio front end:
    the prompt form ([components/PromptForm.tsx]), the orchestrator
    ([App.tsx]) and the story player ([components/VideoResult.tsx]).

    React state is modelled by records, one field per [useState] cell, and
    every event handler by a function on that record.  An effect is a
    function too; it is run after a handler exactly when one of its
    dependencies changed, so a state of the model is a settled state: the
    one the user can act on.  Remote calls are taken from a [World], which
    fixes how each promise settles. *)

From Stdlib Require Import Bool List String Ascii Arith Lia PrimFloat.
Import ListNotations.

Local Open Scope string_scope.
Local Open Scope bool_scope.
Local Open Scope nat_scope.

(** ** JavaScript string operations used by the sources

    A string is a sequence of code units below 256, one [ascii] each: the
    Latin-1 range of the UTF-16 code units JavaScript has. *)

Module JsString.

(** [!s] on a string: the empty string is the only falsy one. *)
Definition isEmpty (s : string) : bool :=
  match s with
  | EmptyString => true
  | String _ _ => false
  end.

(** [s.includes(pat)]: [pat] occurs at some position of [s]. *)
Fixpoint includes (s pat : string) : bool :=
  prefix pat s ||
  match s with
  | EmptyString => false
  | String _ rest => includes rest pat
  end.

(** Lower case of one code unit: A-Z, and the Latin-1 capitals U+00C0 to
    U+00DE without the multiplication sign U+00D7, move up by 32. *)
Definition toLowerChar (c : ascii) : ascii :=
  let n := nat_of_ascii c in
  if ((65 <=? n) && (n <=? 90))
     || ((192 <=? n) && (n <=? 222) && negb (n =? 215))
  then ascii_of_nat (n + 32)
  else c.

(** [s.toLowerCase()]. *)
Fixpoint toLowerCase (s : string) : string :=
  match s with
  | EmptyString => EmptyString
  | String c rest => String (toLowerChar c) (toLowerCase rest)
  end.

(** What [trim] strips, white space and line terminators: TAB, LF, VT,
    FF, CR, SP and the no-break space U+00A0.  The others ECMAScript
    lists (U+1680, U+2000 to U+200A, U+2028, U+2029, U+202F, U+205F,
    U+3000, U+FEFF) lie above the code units a string here can hold. *)
Definition isWhiteSpace (c : ascii) : bool :=
  let n := nat_of_ascii c in
  ((9 <=? n) && (n <=? 13)) || (n =? 32) || (n =? 160).

Fixpoint trimStart (s : string) : string :=
  match s with
  | EmptyString => EmptyString
  | String c rest => if isWhiteSpace c then trimStart rest else s
  end.

Fixpoint reverse (s : string) : string :=
  match s with
  | EmptyString => EmptyString
  | String c rest => reverse rest ++ String c EmptyString
  end.

Definition trimEnd (s : string) : string :=
  reverse (trimStart (reverse s)).

(** [s.trim()]. *)
Definition trim (s : string) : string := trimEnd (trimStart s).

(** All code units of [s] are white space. *)
Fixpoint blank (s : string) : bool :=
  match s with
  | EmptyString => true
  | String c rest => isWhiteSpace c && blank rest
  end.

End JsString.

(** ** The shared types ([types.ts]) *)

(** Modelled from the spec: [types.ts] is not among the sources; the spec
    gives ApplicationState as one of Idle, Loading, Success, Error. *)
Inductive AppState : Type := IDLE | LOADING | SUCCESS | ERROR.

(** Modelled from the spec: the four generation modes of [types.ts]. *)
Inductive GenerationMode : Type :=
  | TEXT_TO_VIDEO
  | FRAMES_TO_VIDEO
  | REFERENCES_TO_VIDEO
  | EXTEND_VIDEO.

(** Modelled from the spec: resolution is one of 720p, 1080p, 4K. *)
Inductive Resolution : Type := P720 | P1080 | P4K.

(** Modelled from the spec: the aspect ratios of [types.ts], landscape
    (16:9) and portrait (9:16). *)
Inductive AspectRatio : Type := LANDSCAPE | PORTRAIT.

(** Modelled from the spec: the models of [types.ts]; [VEO] is the
    high-quality one, [VEO_FAST] the fast one. *)
Inductive VeoModel : Type := VEO | VEO_FAST.

(** Modelled from the spec: NONE and the three named speakers. *)
Inductive Speaker : Type := NONE | ELENA | ARUN | NARRATOR.

Definition GenerationMode_eqb (a b : GenerationMode) : bool :=
  match a, b with
  | TEXT_TO_VIDEO, TEXT_TO_VIDEO
  | FRAMES_TO_VIDEO, FRAMES_TO_VIDEO
  | REFERENCES_TO_VIDEO, REFERENCES_TO_VIDEO
  | EXTEND_VIDEO, EXTEND_VIDEO => true
  | _, _ => false
  end.

Definition Resolution_eqb (a b : Resolution) : bool :=
  match a, b with
  | P720, P720 | P1080, P1080 | P4K, P4K => true
  | _, _ => false
  end.

Definition Speaker_eqb (a b : Speaker) : bool :=
  match a, b with
  | NONE, NONE | ELENA, ELENA | ARUN, ARUN | NARRATOR, NARRATOR => true
  | _, _ => false
  end.

(** Modelled from the spec: the members of the Speaker enum are non-empty
    strings, so each of them is truthy in a condition. *)
Definition truthySpeaker (s : Speaker) : bool := true.

(** Browser and SDK objects the core only passes around. *)
Definition File : Type := string.
Definition Blob : Type := string.
Definition Video : Type := string.

Record ImageFile : Type := mkImageFile {
  imageFile : File;
  imageBase64 : string
}.

Record VideoFile : Type := mkVideoFile {
  videoFile : File;
  videoBase64 : string
}.

Module GenerateVideoParams.
Record t : Type := mk {
  prompt : string;
  model : VeoModel;
  aspectRatio : AspectRatio;
  resolution : Resolution;
  mode : GenerationMode;
  startFrame : option ImageFile;
  endFrame : option ImageFile;
  referenceImages : list ImageFile;
  styleImage : option ImageFile;
  inputVideo : option VideoFile;
  inputVideoObject : option Video;
  isLooping : bool;
  dialogue : option string;
  speaker : Speaker
}.
End GenerateVideoParams.

Module StorySegment.
Record t : Type := mk {
  id : string;
  videoUrl : string;
  audioUrl : option string;
  prompt : string;
  dialogue : option string;
  speaker : Speaker
}.
End StorySegment.

(** [x ? true : false] for a nullable reference. *)
Definition present {A : Type} (x : option A) : bool :=
  match x with
  | Some _ => true
  | None => false
  end.

(** A [string | undefined] that was tested truthy, read as a string. *)
Definition textOrEmpty (x : option string) : string :=
  match x with
  | Some s => s
  | None => ""
  end.

(** Truthiness of [string | undefined]. *)
Definition truthyText (x : option string) : bool :=
  match x with
  | Some s => negb (JsString.isEmpty s)
  | None => false
  end.

(** ** Media ingestion: [extractFrameFromVideo] ([PromptForm.tsx])

    The off-screen video element, reduced to the two properties the seek
    rule reads and writes.  Times are binary64 numbers, as in JavaScript. *)

(* 0.1 is read as the nearest binary64 value, as JavaScript reads it. *)
#[local] Set Warnings "-inexact-float".

Module FrameExtraction.

Record VideoElement : Type := mkVideoElement {
  duration : float;
  currentTime : float
}.

(** [video.onloadeddata]: seek to the end, minus a small buffer. *)
Definition onloadeddata (video : VideoElement) : VideoElement :=
  if PrimFloat.ltb 0.5%float (duration video)
  then mkVideoElement (duration video)
         (PrimFloat.sub (duration video) 0.1%float)
  else mkVideoElement (duration video) 0%float.

(** The seek target of a freshly created element whose media has
    duration [d]. *)
Definition seekTarget (d : float) : float :=
  currentTime (onloadeddata (mkVideoElement d 0%float)).

End FrameExtraction.

(** ** The prompt form ([PromptForm.tsx]) *)

Module PromptForm.

Record FormState : Type := mkFormState {
  prompt : string;
  model : VeoModel;
  aspectRatio : AspectRatio;
  resolution : Resolution;
  generationMode : GenerationMode;
  startFrame : option ImageFile;
  endFrame : option ImageFile;
  referenceImages : list ImageFile;
  styleImage : option ImageFile;
  inputVideo : option VideoFile;
  inputVideoObject : option Video;
  isLooping : bool;
  dialogue : string;
  speaker : Speaker;
  showDialogueInput : bool;
  isSettingsOpen : bool;
  isModeSelectorOpen : bool
}.

Definition setPrompt (v : string) (s : FormState) : FormState :=
  mkFormState v (model s) (aspectRatio s) (resolution s)
    (generationMode s) (startFrame s) (endFrame s) (referenceImages s)
    (styleImage s) (inputVideo s) (inputVideoObject s) (isLooping s)
    (dialogue s) (speaker s) (showDialogueInput s) (isSettingsOpen s)
    (isModeSelectorOpen s).

Definition setModel (v : VeoModel) (s : FormState) : FormState :=
  mkFormState (prompt s) v (aspectRatio s) (resolution s)
    (generationMode s) (startFrame s) (endFrame s) (referenceImages s)
    (styleImage s) (inputVideo s) (inputVideoObject s) (isLooping s)
    (dialogue s) (speaker s) (showDialogueInput s) (isSettingsOpen s)
    (isModeSelectorOpen s).

Definition setAspectRatio (v : AspectRatio) (s : FormState) : FormState :=
  mkFormState (prompt s) (model s) v (resolution s) (generationMode s)
    (startFrame s) (endFrame s) (referenceImages s) (styleImage s)
    (inputVideo s) (inputVideoObject s) (isLooping s) (dialogue s)
    (speaker s) (showDialogueInput s) (isSettingsOpen s)
    (isModeSelectorOpen s).

Definition setResolution (v : Resolution) (s : FormState) : FormState :=
  mkFormState (prompt s) (model s) (aspectRatio s) v
    (generationMode s) (startFrame s) (endFrame s) (referenceImages s)
    (styleImage s) (inputVideo s) (inputVideoObject s) (isLooping s)
    (dialogue s) (speaker s) (showDialogueInput s) (isSettingsOpen s)
    (isModeSelectorOpen s).

Definition setGenerationMode (v : GenerationMode) (s : FormState) : FormState :=
  mkFormState (prompt s) (model s) (aspectRatio s) (resolution s) v
    (startFrame s) (endFrame s) (referenceImages s) (styleImage s)
    (inputVideo s) (inputVideoObject s) (isLooping s) (dialogue s)
    (speaker s) (showDialogueInput s) (isSettingsOpen s)
    (isModeSelectorOpen s).

Definition setStartFrame (v : option ImageFile) (s : FormState) : FormState :=
  mkFormState (prompt s) (model s) (aspectRatio s) (resolution s)
    (generationMode s) v (endFrame s) (referenceImages s)
    (styleImage s) (inputVideo s) (inputVideoObject s) (isLooping s)
    (dialogue s) (speaker s) (showDialogueInput s) (isSettingsOpen s)
    (isModeSelectorOpen s).

Definition setEndFrame (v : option ImageFile) (s : FormState) : FormState :=
  mkFormState (prompt s) (model s) (aspectRatio s) (resolution s)
    (generationMode s) (startFrame s) v (referenceImages s)
    (styleImage s) (inputVideo s) (inputVideoObject s) (isLooping s)
    (dialogue s) (speaker s) (showDialogueInput s) (isSettingsOpen s)
    (isModeSelectorOpen s).

Definition setReferenceImages (v : list ImageFile) (s : FormState) : FormState :=
  mkFormState (prompt s) (model s) (aspectRatio s) (resolution s)
    (generationMode s) (startFrame s) (endFrame s) v (styleImage s)
    (inputVideo s) (inputVideoObject s) (isLooping s) (dialogue s)
    (speaker s) (showDialogueInput s) (isSettingsOpen s)
    (isModeSelectorOpen s).

Definition setStyleImage (v : option ImageFile) (s : FormState) : FormState :=
  mkFormState (prompt s) (model s) (aspectRatio s) (resolution s)
    (generationMode s) (startFrame s) (endFrame s) (referenceImages s)
    v (inputVideo s) (inputVideoObject s) (isLooping s) (dialogue s)
    (speaker s) (showDialogueInput s) (isSettingsOpen s)
    (isModeSelectorOpen s).

Definition setInputVideo (v : option VideoFile) (s : FormState) : FormState :=
  mkFormState (prompt s) (model s) (aspectRatio s) (resolution s)
    (generationMode s) (startFrame s) (endFrame s) (referenceImages s)
    (styleImage s) v (inputVideoObject s) (isLooping s) (dialogue s)
    (speaker s) (showDialogueInput s) (isSettingsOpen s)
    (isModeSelectorOpen s).

Definition setInputVideoObject (v : option Video) (s : FormState) : FormState :=
  mkFormState (prompt s) (model s) (aspectRatio s) (resolution s)
    (generationMode s) (startFrame s) (endFrame s) (referenceImages s)
    (styleImage s) (inputVideo s) v (isLooping s) (dialogue s)
    (speaker s) (showDialogueInput s) (isSettingsOpen s)
    (isModeSelectorOpen s).

Definition setIsLooping (v : bool) (s : FormState) : FormState :=
  mkFormState (prompt s) (model s) (aspectRatio s) (resolution s)
    (generationMode s) (startFrame s) (endFrame s) (referenceImages s)
    (styleImage s) (inputVideo s) (inputVideoObject s) v (dialogue s)
    (speaker s) (showDialogueInput s) (isSettingsOpen s)
    (isModeSelectorOpen s).

Definition setDialogue (v : string) (s : FormState) : FormState :=
  mkFormState (prompt s) (model s) (aspectRatio s) (resolution s)
    (generationMode s) (startFrame s) (endFrame s) (referenceImages s)
    (styleImage s) (inputVideo s) (inputVideoObject s) (isLooping s) v
    (speaker s) (showDialogueInput s) (isSettingsOpen s)
    (isModeSelectorOpen s).

Definition setSpeaker (v : Speaker) (s : FormState) : FormState :=
  mkFormState (prompt s) (model s) (aspectRatio s) (resolution s)
    (generationMode s) (startFrame s) (endFrame s) (referenceImages s)
    (styleImage s) (inputVideo s) (inputVideoObject s) (isLooping s)
    (dialogue s) v (showDialogueInput s) (isSettingsOpen s)
    (isModeSelectorOpen s).

Definition setShowDialogueInput (v : bool) (s : FormState) : FormState :=
  mkFormState (prompt s) (model s) (aspectRatio s) (resolution s)
    (generationMode s) (startFrame s) (endFrame s) (referenceImages s)
    (styleImage s) (inputVideo s) (inputVideoObject s) (isLooping s)
    (dialogue s) (speaker s) v (isSettingsOpen s)
    (isModeSelectorOpen s).

Definition setIsSettingsOpen (v : bool) (s : FormState) : FormState :=
  mkFormState (prompt s) (model s) (aspectRatio s) (resolution s)
    (generationMode s) (startFrame s) (endFrame s) (referenceImages s)
    (styleImage s) (inputVideo s) (inputVideoObject s) (isLooping s)
    (dialogue s) (speaker s) (showDialogueInput s) v
    (isModeSelectorOpen s).

Definition setIsModeSelectorOpen (v : bool) (s : FormState) : FormState :=
  mkFormState (prompt s) (model s) (aspectRatio s) (resolution s)
    (generationMode s) (startFrame s) (endFrame s) (referenceImages s)
    (styleImage s) (inputVideo s) (inputVideoObject s) (isLooping s)
    (dialogue s) (speaker s) (showDialogueInput s) (isSettingsOpen s)
    v.
Definition isExtendMode (s : FormState) : bool :=
  GenerationMode_eqb (generationMode s) EXTEND_VIDEO.

Definition isReferenceMode (s : FormState) : bool :=
  GenerationMode_eqb (generationMode s) REFERENCES_TO_VIDEO.

(** *** Mounting: the [useState] initialisers and the two effects *)

(** [initialValues?.field ?? fallback]. *)
Definition orDefault {A : Type} (initialValues : option GenerateVideoParams.t)
    (field : GenerateVideoParams.t -> A) (fallback : A) : A :=
  match initialValues with
  | Some p => field p
  | None => fallback
  end.

Definition textOr (fallback : string) (x : option string) : string :=
  match x with
  | Some d => d
  | None => fallback
  end.

Definition initialState (initialValues : option GenerateVideoParams.t)
    : FormState :=
  mkFormState
    (orDefault initialValues GenerateVideoParams.prompt "")
    (orDefault initialValues GenerateVideoParams.model VEO_FAST)
    (orDefault initialValues GenerateVideoParams.aspectRatio LANDSCAPE)
    (orDefault initialValues GenerateVideoParams.resolution P720)
    (orDefault initialValues GenerateVideoParams.mode TEXT_TO_VIDEO)
    (orDefault initialValues GenerateVideoParams.startFrame None)
    (orDefault initialValues GenerateVideoParams.endFrame None)
    (orDefault initialValues GenerateVideoParams.referenceImages [])
    (orDefault initialValues GenerateVideoParams.styleImage None)
    (orDefault initialValues GenerateVideoParams.inputVideo None)
    (orDefault initialValues GenerateVideoParams.inputVideoObject None)
    (orDefault initialValues GenerateVideoParams.isLooping false)
    (textOr "" (orDefault initialValues GenerateVideoParams.dialogue None))
    (orDefault initialValues GenerateVideoParams.speaker NONE)
    false false false.

(** The effect on [initialValues]. *)
Definition initialValuesEffect
    (initialValues : option GenerateVideoParams.t) (s : FormState)
    : FormState :=
  match initialValues with
  | None => s
  | Some p =>
      let s := setPrompt (GenerateVideoParams.prompt p) s in
      let s := setModel (GenerateVideoParams.model p) s in
      let s := setAspectRatio (GenerateVideoParams.aspectRatio p) s in
      let s := setResolution (GenerateVideoParams.resolution p) s in
      let s := setGenerationMode (GenerateVideoParams.mode p) s in
      let s := setStartFrame (GenerateVideoParams.startFrame p) s in
      let s := setEndFrame (GenerateVideoParams.endFrame p) s in
      let s :=
        setReferenceImages (GenerateVideoParams.referenceImages p) s in
      let s := setStyleImage (GenerateVideoParams.styleImage p) s in
      let s := setInputVideo (GenerateVideoParams.inputVideo p) s in
      let s :=
        setInputVideoObject (GenerateVideoParams.inputVideoObject p) s in
      let s := setIsLooping (GenerateVideoParams.isLooping p) s in
      let s := setDialogue (textOr "" (GenerateVideoParams.dialogue p)) s in
      let s := setSpeaker (GenerateVideoParams.speaker p) s in
      if truthyText (GenerateVideoParams.dialogue p)
         || negb (Speaker_eqb (GenerateVideoParams.speaker p) NONE)
      then setShowDialogueInput true s
      else s
  end.

(** The effect on [generationMode]: extension is 720p only; reference
    mode needs the high-quality model, 16:9 and 720p. *)
Definition modeRulesEffect (s : FormState) : FormState :=
  let s :=
    if GenerationMode_eqb (generationMode s) EXTEND_VIDEO
    then setResolution P720 s
    else s in
  if GenerationMode_eqb (generationMode s) REFERENCES_TO_VIDEO
  then setResolution P720 (setAspectRatio LANDSCAPE (setModel VEO s))
  else s.

(** The form once mounted: first render, then both effects in order. *)
Definition mount (initialValues : option GenerateVideoParams.t)
    : FormState :=
  modeRulesEffect (initialValuesEffect initialValues
                     (initialState initialValues)).

(** *** Event handlers *)

Definition handleSelectMode (mode : GenerationMode) (s : FormState)
    : FormState :=
  let s := setGenerationMode mode s in
  let s := setIsModeSelectorOpen false s in
  let s := setStartFrame None s in
  let s := setEndFrame None s in
  let s := setReferenceImages [] s in
  let s := setStyleImage None s in
  let s := setInputVideo None s in
  let s := setInputVideoObject None s in
  setIsLooping false s.

Definition selectableModes : list GenerationMode :=
  [TEXT_TO_VIDEO; FRAMES_TO_VIDEO; REFERENCES_TO_VIDEO].

(** [imgs.filter((_, idx) => idx !== i)]. *)
Fixpoint removeAt {A : Type} (i : nat) (l : list A) : list A :=
  match l, i with
  | [], _ => []
  | _ :: rest, 0 => rest
  | x :: rest, S j => x :: removeAt j rest
  end.

Inductive Event : Type :=
  | ChangePrompt (v : string)
  | ToggleSettings
  | ChangeModel (v : VeoModel)
  | ChangeAspectRatio (v : AspectRatio)
  | ChangeResolution (v : Resolution)
  | ToggleModeSelector
  | ClickOutsideModeSelector
  | SelectMode (mode : GenerationMode)
  | ToggleDialogue
  | ChangeSpeaker (v : Speaker)
  | ChangeDialogue (v : string)
  | StartFrameSelected (image : ImageFile)
  | StartFrameRemoved
  | EndFrameSelected (image : ImageFile)
  | EndFrameRemoved
  | LoopingChanged (checked : bool)
  | ReferenceSelected (image : ImageFile)
  | ReferenceRemoved (i : nat)
  | InputVideoSelected (video : VideoFile)
  | InputVideoRemoved.

(** Whether the control that raises the event is rendered and enabled.
    An upload completes asynchronously, after the file is converted, so
    its [onSelect] is not tied to what is rendered by then. *)
Definition offered (e : Event) (s : FormState) : bool :=
  match e with
  | ChangeModel _ | ChangeAspectRatio _ =>
      isSettingsOpen s && negb (isReferenceMode s)
  | ChangeResolution _ =>
      isSettingsOpen s && negb (isExtendMode s || isReferenceMode s)
  | SelectMode mode =>
      isModeSelectorOpen s
      && existsb (GenerationMode_eqb mode) selectableModes
  | ChangeSpeaker _ | ChangeDialogue _ => showDialogueInput s
  | StartFrameRemoved =>
      GenerationMode_eqb (generationMode s) FRAMES_TO_VIDEO
      && present (startFrame s)
  | EndFrameRemoved =>
      GenerationMode_eqb (generationMode s) FRAMES_TO_VIDEO
      && negb (isLooping s) && present (endFrame s)
  | LoopingChanged _ =>
      GenerationMode_eqb (generationMode s) FRAMES_TO_VIDEO
      && present (startFrame s) && negb (present (endFrame s))
  | ReferenceRemoved i =>
      isReferenceMode s && (i <? 3)
      && present (nth_error (referenceImages s) i)
  | InputVideoRemoved => isExtendMode s && present (inputVideo s)
  | _ => true
  end.

Definition handle (e : Event) (s : FormState) : FormState :=
  match e with
  | ChangePrompt v => setPrompt v s
  | ToggleSettings => setIsSettingsOpen (negb (isSettingsOpen s)) s
  | ChangeModel v => setModel v s
  | ChangeAspectRatio v => setAspectRatio v s
  | ChangeResolution v => setResolution v s
  | ToggleModeSelector =>
      setIsModeSelectorOpen (negb (isModeSelectorOpen s)) s
  | ClickOutsideModeSelector => setIsModeSelectorOpen false s
  | SelectMode mode => handleSelectMode mode s
  | ToggleDialogue => setShowDialogueInput (negb (showDialogueInput s)) s
  | ChangeSpeaker v => setSpeaker v s
  | ChangeDialogue v => setDialogue v s
  | StartFrameSelected image => setStartFrame (Some image) s
  | StartFrameRemoved => setIsLooping false (setStartFrame None s)
  | EndFrameSelected image => setEndFrame (Some image) s
  | EndFrameRemoved => setEndFrame None s
  | LoopingChanged checked => setIsLooping checked s
  | ReferenceSelected image =>
      setReferenceImages (referenceImages s ++ [image])%list s
  | ReferenceRemoved i =>
      setReferenceImages (removeAt i (referenceImages s)) s
  | InputVideoSelected video => setInputVideo (Some video) s
  | InputVideoRemoved => setInputVideoObject None (setInputVideo None s)
  end.

(** One event, then the re-render: the mode effect runs when, and only
    when, [generationMode] changed. *)
Definition step (s : FormState) (e : Event) : FormState :=
  if offered e s then
    let s' := handle e s in
    if GenerationMode_eqb (generationMode s') (generationMode s)
    then s'
    else modeRulesEffect s'
  else s.

Definition run (s : FormState) (events : list Event) : FormState :=
  fold_left step events s.

(** *** Submit gating (the [switch] on [generationMode]) *)

Definition submitGate (s : FormState) : bool * string :=
  match generationMode s with
  | TEXT_TO_VIDEO =>
      let isSubmitDisabled := JsString.isEmpty (JsString.trim (prompt s)) in
      (isSubmitDisabled,
       if isSubmitDisabled then "Please enter a visual description."
       else "")
  | FRAMES_TO_VIDEO =>
      let isSubmitDisabled := negb (present (startFrame s)) in
      (isSubmitDisabled,
       if isSubmitDisabled then "A start frame is required." else "")
  | REFERENCES_TO_VIDEO =>
      let hasNoPrompt := JsString.isEmpty (JsString.trim (prompt s)) in
      let hasNoAssets := List.length (referenceImages s) =? 0 in
      (hasNoPrompt || hasNoAssets,
       if hasNoPrompt && hasNoAssets
       then "Please enter a prompt and add at least one asset."
       else if hasNoPrompt then "Please enter a prompt."
       else if hasNoAssets
       then "At least one reference asset is required."
       else "")
  | EXTEND_VIDEO =>
      let isSubmitDisabled := negb (present (inputVideoObject s)) in
      (isSubmitDisabled,
       if isSubmitDisabled
       then "An input video from a previous generation is required to extend."
       else "")
  end.

Definition isSubmitDisabled (s : FormState) : bool := fst (submitGate s).
Definition tooltipText (s : FormState) : string := snd (submitGate s).

(** *** Submission *)

Definition handleSubmit (s : FormState) : GenerateVideoParams.t :=
  GenerateVideoParams.mk
    (prompt s) (model s) (aspectRatio s) (resolution s) (generationMode s)
    (startFrame s) (endFrame s) (referenceImages s) (styleImage s)
    (inputVideo s) (inputVideoObject s) (isLooping s)
    (if showDialogueInput s then Some (dialogue s) else None)
    (if showDialogueInput s then speaker s else NONE).

(** Pressing the submit button: nothing while it is disabled. *)
Definition submit (s : FormState) : option GenerateVideoParams.t :=
  if isSubmitDisabled s then None else Some (handleSubmit s).

End PromptForm.

(** ** The orchestrator ([App.tsx]) *)

Module App.

(** *** Collaborators

    [services/geminiService] and [window.aistudio] are outside the core;
    a [World] says how each of their promises settles in one attempt. *)

(** What a [catch] clause may receive. *)
Inductive Thrown : Type :=
  | ErrorObject (message : string)
  | OtherValue.

Inductive Settled (A : Type) : Type :=
  | Fulfilled (value : A)
  | Rejected (reason : Thrown).

Arguments Fulfilled {A} value.
Arguments Rejected {A} reason.

Record GeneratedVideo : Type := mkGeneratedVideo {
  objectUrl : string;
  blob : Blob;
  video : Video
}.

Record GeneratedSpeech : Type := mkGeneratedSpeech {
  audioUrl : string
}.

Record World : Type := mkWorld {
  (** [window.aistudio], and how [hasSelectedApiKey()] settles *)
  aistudio : option (Settled bool);
  generateVideo : GenerateVideoParams.t -> Settled GeneratedVideo;
  generateSpeech : string -> Speaker -> Settled GeneratedSpeech;
  (** when both promises reject: whether the video one is the earlier *)
  videoRejectsFirst : bool;
  (** [Date.now().toString()] when the attempt completes *)
  now : string
}.

(** Calls made to the collaborators, in order. *)
Inductive Call : Type :=
  | HasSelectedApiKey
  | GenerateVideo (params : GenerateVideoParams.t)
  | GenerateSpeech (text : string) (speaker : Speaker).

Definition isGenerationCall (c : Call) : bool :=
  match c with
  | HasSelectedApiKey => false
  | GenerateVideo _ | GenerateSpeech _ _ => true
  end.

Definition isSpeechCall (c : Call) : bool :=
  match c with
  | GenerateSpeech _ _ => true
  | _ => false
  end.

(** [Promise.all] of two promises: both values, or the reason of the
    promise that rejected first. *)
Definition promiseAll {A B : Type} (firstIsEarlier : bool)
    (a : Settled A) (b : Settled B) : Settled (A * B) :=
  match a, b with
  | Fulfilled x, Fulfilled y => Fulfilled (x, y)
  | Rejected e, Fulfilled _ => Rejected e
  | Fulfilled _, Rejected e => Rejected e
  | Rejected e1, Rejected e2 =>
      Rejected (if firstIsEarlier then e1 else e2)
  end.

(** *** State *)

Record AppData : Type := mkAppData {
  appState : AppState;
  errorMessage : option string;
  timeline : list StorySegment.t;
  currentSegmentId : option string;
  lastConfig : option GenerateVideoParams.t;
  lastVideoObject : option Video;
  lastVideoBlob : option Blob;
  showApiKeyDialog : bool;
  initialFormValues : option GenerateVideoParams.t
}.

Definition setAppState (v : AppState) (s : AppData) : AppData :=
  mkAppData v (errorMessage s) (timeline s) (currentSegmentId s)
    (lastConfig s) (lastVideoObject s) (lastVideoBlob s)
    (showApiKeyDialog s) (initialFormValues s).

Definition setErrorMessage (v : option string) (s : AppData) : AppData :=
  mkAppData (appState s) v (timeline s) (currentSegmentId s)
    (lastConfig s) (lastVideoObject s) (lastVideoBlob s)
    (showApiKeyDialog s) (initialFormValues s).

Definition setTimeline (v : list StorySegment.t) (s : AppData) : AppData :=
  mkAppData (appState s) (errorMessage s) v (currentSegmentId s)
    (lastConfig s) (lastVideoObject s) (lastVideoBlob s)
    (showApiKeyDialog s) (initialFormValues s).

Definition setCurrentSegmentId (v : option string) (s : AppData) : AppData :=
  mkAppData (appState s) (errorMessage s) (timeline s) v
    (lastConfig s) (lastVideoObject s) (lastVideoBlob s)
    (showApiKeyDialog s) (initialFormValues s).

Definition setLastConfig (v : option GenerateVideoParams.t) (s : AppData) : AppData :=
  mkAppData (appState s) (errorMessage s) (timeline s)
    (currentSegmentId s) v (lastVideoObject s) (lastVideoBlob s)
    (showApiKeyDialog s) (initialFormValues s).

Definition setLastVideoObject (v : option Video) (s : AppData) : AppData :=
  mkAppData (appState s) (errorMessage s) (timeline s)
    (currentSegmentId s) (lastConfig s) v (lastVideoBlob s)
    (showApiKeyDialog s) (initialFormValues s).

Definition setLastVideoBlob (v : option Blob) (s : AppData) : AppData :=
  mkAppData (appState s) (errorMessage s) (timeline s)
    (currentSegmentId s) (lastConfig s) (lastVideoObject s) v
    (showApiKeyDialog s) (initialFormValues s).

Definition setShowApiKeyDialog (v : bool) (s : AppData) : AppData :=
  mkAppData (appState s) (errorMessage s) (timeline s)
    (currentSegmentId s) (lastConfig s) (lastVideoObject s)
    (lastVideoBlob s) v (initialFormValues s).

Definition setInitialFormValues (v : option GenerateVideoParams.t) (s : AppData) : AppData :=
  mkAppData (appState s) (errorMessage s) (timeline s)
    (currentSegmentId s) (lastConfig s) (lastVideoObject s)
    (lastVideoBlob s) (showApiKeyDialog s) v.
Definition initial : AppData :=
  mkAppData IDLE None [] None None None None false None.

(** The effect run once at start. *)
Definition checkApiKey (w : World) (s : AppData) : AppData * list Call :=
  match aistudio w with
  | Some (Fulfilled true) => (s, [HasSelectedApiKey])
  | Some (Fulfilled false) | Some (Rejected _) =>
      (setShowApiKeyDialog true s, [HasSelectedApiKey])
  | None => (s, [])
  end.

Definition start (w : World) : AppData * list Call :=
  checkApiKey w initial.

Definition showStatusError (message : string) (s : AppData) : AppData :=
  setAppState ERROR (setErrorMessage (Some message) s).

(** *** One generation attempt *)

Definition modelNotFoundMessage : string :=
  "Model not found. This can be caused by an invalid API key or permission issues. Please check your API key.".

Definition invalidKeyMessage : string :=
  "Your API key is invalid or lacks permissions. Please select a valid, billing-enabled API key.".

(** [error instanceof Error ? error.message : 'An unknown error
    occurred.']. *)
Definition rawMessage (error : Thrown) : string :=
  match error with
  | ErrorObject message => message
  | OtherValue => "An unknown error occurred."
  end.

(** The body of the [catch] clause up to the state updates:
    [(userFriendlyMessage, shouldOpenDialog)].  [errorMessage] is a string
    on both branches of [rawMessage], so the [typeof] test always passes. *)
Definition classifyError (error : Thrown) : string * bool :=
  let errorMessage := rawMessage error in
  if JsString.includes errorMessage "Requested entity was not found."
  then (modelNotFoundMessage, true)
  else if JsString.includes errorMessage "API_KEY_INVALID"
          || JsString.includes errorMessage "API key not valid"
          || JsString.includes (JsString.toLowerCase errorMessage)
               "permission denied"
          || JsString.includes errorMessage "403"
  then (invalidKeyMessage, true)
  else ("Generation failed: " ++ errorMessage, false).

(** The condition under which speech is generated. *)
Definition wantsSpeech (params : GenerateVideoParams.t) : bool :=
  truthyText (GenerateVideoParams.dialogue params)
  && truthySpeaker (GenerateVideoParams.speaker params)
  && negb (Speaker_eqb (GenerateVideoParams.speaker params) NONE).

(** The guard in front of an attempt: whether it lets the attempt
    through, and the call it made.  Without [window.aistudio] there is
    nothing to ask. *)
Definition credentialGuard (w : World) : bool * list Call :=
  match aistudio w with
  | None => (true, [])
  | Some (Fulfilled true) => (true, [HasSelectedApiKey])
  | Some (Fulfilled false) | Some (Rejected _) =>
      (false, [HasSelectedApiKey])
  end.

Definition handleGenerate (w : World) (params : GenerateVideoParams.t)
    (s : AppData) : AppData * list Call :=
  let (proceed, checked) := credentialGuard w in
  if negb proceed then (setShowApiKeyDialog true s, checked)
  else
    let s := setAppState LOADING s in
    let s := setErrorMessage None s in
    let s := setLastConfig (Some params) s in
    let s := setInitialFormValues None s in
    let videoPromise := generateVideo w params in
    let speechPromise :=
      if wantsSpeech params
      then match generateSpeech w
                   (textOrEmpty (GenerateVideoParams.dialogue params))
                   (GenerateVideoParams.speaker params) with
           | Fulfilled r => Fulfilled (Some r)
           | Rejected e => Rejected e
           end
      else Fulfilled None in
    let calls :=
      (checked ++ [GenerateVideo params] ++
       (if wantsSpeech params
        then [GenerateSpeech
                (textOrEmpty (GenerateVideoParams.dialogue params))
                (GenerateVideoParams.speaker params)]
        else []))%list in
    match promiseAll (videoRejectsFirst w) videoPromise speechPromise with
    | Fulfilled (videoResult, speechResult) =>
        let newSegment :=
          StorySegment.mk (now w) (objectUrl videoResult)
            (option_map audioUrl speechResult)
            (GenerateVideoParams.prompt params)
            (GenerateVideoParams.dialogue params)
            (GenerateVideoParams.speaker params) in
        let s := setTimeline (timeline s ++ [newSegment])%list s in
        let s :=
          setCurrentSegmentId (Some (StorySegment.id newSegment)) s in
        let s := setLastVideoBlob (Some (blob videoResult)) s in
        let s := setLastVideoObject (Some (video videoResult)) s in
        (setAppState SUCCESS s, calls)
    | Rejected error =>
        let (userFriendlyMessage, shouldOpenDialog) :=
          classifyError error in
        let s := setErrorMessage (Some userFriendlyMessage) s in
        let s := setAppState ERROR s in
        (if shouldOpenDialog then setShowApiKeyDialog true s else s,
         calls)
    end.

Definition handleRetry (w : World) (s : AppData) : AppData * list Call :=
  match lastConfig s with
  | Some config => handleGenerate w config s
  | None => (s, [])
  end.

Definition handleNewVideo (s : AppData) : AppData :=
  let s := setAppState IDLE s in
  let s := setErrorMessage None s in
  let s := setLastConfig None s in
  let s := setLastVideoObject None s in
  let s := setLastVideoBlob None s in
  let s := setInitialFormValues None s in
  let s := setTimeline [] s in
  setCurrentSegmentId None s.

Definition handleAddScene (s : AppData) : AppData :=
  match lastConfig s with
  | Some config =>
      let nextParams :=
        GenerateVideoParams.mk ""
          (GenerateVideoParams.model config)
          (GenerateVideoParams.aspectRatio config)
          (GenerateVideoParams.resolution config)
          (if GenerationMode_eqb (GenerateVideoParams.mode config)
                EXTEND_VIDEO
           then TEXT_TO_VIDEO
           else GenerateVideoParams.mode config)
          None None
          (GenerateVideoParams.referenceImages config)
          (GenerateVideoParams.styleImage config)
          None None false (Some "")
          (GenerateVideoParams.speaker config) in
      let s := setInitialFormValues (Some nextParams) s in
      let s := setAppState IDLE s in
      setErrorMessage None s
  | None => handleNewVideo s
  end.

Definition handleTryAgainFromError (s : AppData) : AppData :=
  match lastConfig s with
  | Some config =>
      let s := setInitialFormValues (Some config) s in
      let s := setAppState IDLE s in
      setErrorMessage None s
  | None => handleNewVideo s
  end.

(** [handleExtend].  [thrown] is what [new File([lastVideoBlob],
    'last_video.mp4', ...)] throws, if it throws: the one statement of
    the [try] block that can. *)
Definition handleExtend (thrown : option Thrown) (s : AppData) : AppData :=
  match lastConfig s, lastVideoBlob s, lastVideoObject s with
  | Some config, Some _, Some videoObject =>
      match thrown with
      | None =>
          let videoFile := mkVideoFile "last_video.mp4" "" in
          let draft :=
            GenerateVideoParams.mk ""
              (GenerateVideoParams.model config)
              (GenerateVideoParams.aspectRatio config)
              P720 EXTEND_VIDEO None None [] None
              (Some videoFile) (Some videoObject) false (Some "") NONE in
          let s := setInitialFormValues (Some draft) s in
          let s := setAppState IDLE s in
          setErrorMessage None s
      | Some error =>
          showStatusError
            ("Failed to prepare video for extension: " ++ rawMessage error)
            s
      end
  | _, _, _ => s
  end.

(** [lastConfig?.resolution === Resolution.P720]. *)
Definition canExtend (s : AppData) : bool :=
  match lastConfig s with
  | Some config =>
      Resolution_eqb (GenerateVideoParams.resolution config) P720
  | None => false
  end.

(** [timeline.find(s => s.id === currentSegmentId)]. *)
Definition currentSegment (s : AppData) : option StorySegment.t :=
  match currentSegmentId s with
  | Some wanted =>
      find (fun seg => String.eqb (StorySegment.id seg) wanted) (timeline s)
  | None => None
  end.

(** *** The operations as events; an attempt runs to its end *)

Inductive Event : Type :=
  | Generate (w : World) (params : GenerateVideoParams.t)
  | Retry (w : World)
  | NewVideo
  | AddScene
  | TryAgainFromError
  | Extend (thrown : option Thrown).

Definition step (s : AppData) (e : Event) : AppData :=
  match e with
  | Generate w params => fst (handleGenerate w params s)
  | Retry w => fst (handleRetry w s)
  | NewVideo => handleNewVideo s
  | AddScene => handleAddScene s
  | TryAgainFromError => handleTryAgainFromError s
  | Extend thrown => handleExtend thrown s
  end.

Definition run (s : AppData) (events : list Event) : AppData :=
  fold_left step events s.

End App.

(** ** The story player ([VideoResult.tsx]) *)

Module VideoResult.

Record Props : Type := mkProps {
  currentSegment : StorySegment.t;
  timeline : list StorySegment.t
}.

Record PlaybackState : Type := mkPlaybackState {
  isPlayingStory : bool;
  storyIndex : nat;
  viewingSegment : StorySegment.t
}.

Definition setIsPlayingStory (v : bool) (s : PlaybackState) : PlaybackState :=
  mkPlaybackState v (storyIndex s) (viewingSegment s).

Definition setStoryIndex (v : nat) (s : PlaybackState) : PlaybackState :=
  mkPlaybackState (isPlayingStory s) v (viewingSegment s).

Definition setViewingSegment (v : StorySegment.t) (s : PlaybackState) : PlaybackState :=
  mkPlaybackState (isPlayingStory s) (storyIndex s) v.
(** First render: not playing, index 0, viewing the current segment. *)
Definition mount (props : Props) : PlaybackState :=
  mkPlaybackState false 0 (currentSegment props).

(** Effect on [currentSegment, isPlayingStory]. *)
Definition viewingEffect (props : Props) (s : PlaybackState)
    : PlaybackState :=
  if negb (isPlayingStory s)
  then setViewingSegment (currentSegment props) s
  else s.

(** Effect on [isPlayingStory, storyIndex, timeline]. *)
Definition playbackEffect (props : Props) (s : PlaybackState)
    : PlaybackState :=
  if isPlayingStory s && (storyIndex s <? List.length (timeline props))
  then match nth_error (timeline props) (storyIndex s) with
       | Some segment => setViewingSegment segment s
       | None => s
       end
  else s.

Definition handleVideoEnded (props : Props) (s : PlaybackState)
    : PlaybackState :=
  if isPlayingStory s then
    if storyIndex s <? List.length (timeline props) - 1
    then setStoryIndex (storyIndex s + 1) s
    else
      let s := setIsPlayingStory false s in
      let s := setStoryIndex 0 s in
      setViewingSegment (currentSegment props) s
  else s.

Definition togglePlayStory (props : Props) (s : PlaybackState)
    : PlaybackState :=
  if isPlayingStory s then
    setViewingSegment (currentSegment props) (setIsPlayingStory false s)
  else
    setIsPlayingStory true (setStoryIndex 0 s).

(** Click on a card of the storyboard. *)
Definition selectSegment (segment : StorySegment.t) (s : PlaybackState)
    : PlaybackState :=
  if negb (isPlayingStory s) then setViewingSegment segment s else s.

Inductive Event : Type :=
  | VideoEnded
  | PlayStoryClicked
  | SegmentClicked (segment : StorySegment.t).

(** The play/stop button exists only for a story of two scenes or more. *)
Definition playStoryOffered (props : Props) : bool :=
  1 <? List.length (timeline props).

Definition offered (props : Props) (e : Event) : bool :=
  match e with
  | PlayStoryClicked => playStoryOffered props
  | VideoEnded | SegmentClicked _ => true
  end.

Definition handle (props : Props) (e : Event) (s : PlaybackState)
    : PlaybackState :=
  match e with
  | VideoEnded => handleVideoEnded props s
  | PlayStoryClicked => togglePlayStory props s
  | SegmentClicked segment => selectSegment segment s
  end.

(** One event and the re-render with its effects; each effect runs only
    if one of its dependencies changed (the props stay as they are). *)
Definition step (props : Props) (s : PlaybackState) (e : Event)
    : PlaybackState :=
  if offered props e then
    let s' := handle props e s in
    let playingChanged :=
      negb (Bool.eqb (isPlayingStory s') (isPlayingStory s)) in
    let indexChanged := negb (storyIndex s' =? storyIndex s) in
    let s1 := if playingChanged then viewingEffect props s' else s' in
    if playingChanged || indexChanged
    then playbackEffect props s1
    else s1
  else s.

Definition run (props : Props) (s : PlaybackState) (events : list Event)
    : PlaybackState :=
  fold_left (step props) events s.

End VideoResult.

(** ** The rules as the specification words them

    Each definition below follows the text of the specification, not the
    code; the theorems compare the two. *)

Module Rules.

(** *** Error classification table *)

Inductive Category : Type := ModelNotFound | CredentialInvalid | Generic.

Inductive Pattern : Type :=
  | Contains (text : string)
  | ContainsIgnoringCase (text : string).

Definition matches (raw : string) (p : Pattern) : bool :=
  match p with
  | Contains text => JsString.includes raw text
  | ContainsIgnoringCase text =>
      JsString.includes (JsString.toLowerCase raw)
        (JsString.toLowerCase text)
  end.

(** The rows above the catch-all, in the order of the table. *)
Definition rows : list (list Pattern * Category) :=
  [ ([Contains "Requested entity was not found."], ModelNotFound);
    ([Contains "API_KEY_INVALID"; Contains "API key not valid";
      ContainsIgnoringCase "permission denied"; Contains "403"],
     CredentialInvalid) ].

(** First match wins; anything else is generic. *)
Fixpoint firstMatch (raw : string)
    (table : list (list Pattern * Category)) : Category :=
  match table with
  | [] => Generic
  | (patterns, category) :: rest =>
      if existsb (matches raw) patterns then category
      else firstMatch raw rest
  end.

Definition classify (raw : string) : Category := firstMatch raw rows.

Definition userMessage (c : Category) (raw : string) : string :=
  match c with
  | ModelNotFound => App.modelNotFoundMessage
  | CredentialInvalid => App.invalidKeyMessage
  | Generic => "Generation failed: " ++ raw
  end.

Definition triggersReselection (c : Category) : bool :=
  match c with
  | ModelNotFound | CredentialInvalid => true
  | Generic => false
  end.

(** *** Mode switch: no asset of any mode is held *)

Definition assetsCleared (s : PromptForm.FormState) : Prop :=
  PromptForm.startFrame s = None
  /\ PromptForm.endFrame s = None
  /\ PromptForm.referenceImages s = []
  /\ PromptForm.styleImage s = None
  /\ PromptForm.inputVideo s = None
  /\ PromptForm.inputVideoObject s = None
  /\ PromptForm.isLooping s = false.

(** *** The most recent segment of a timeline: its last entry *)

Definition mostRecent (timeline : list StorySegment.t)
    : option StorySegment.t :=
  nth_error timeline (List.length timeline - 1).

(** The current-segment pointer names the last entry of the timeline. *)
Definition pointsToLast (s : App.AppData) : Prop :=
  App.currentSegmentId s
  = option_map StorySegment.id (mostRecent (App.timeline s)).

(** *** A failed attempt

    What an attempt that fails on [error] leaves behind: the Error state
    with the message for [error], the attempted config recorded, and the
    timeline, the current-segment pointer and the retained artifact as
    they were. *)
Definition afterFailure (s : App.AppData) (params : GenerateVideoParams.t)
    (error : App.Thrown) : App.AppData :=
  App.mkAppData ERROR (Some (fst (App.classifyError error)))
    (App.timeline s) (App.currentSegmentId s) (Some params)
    (App.lastVideoObject s) (App.lastVideoBlob s)
    (snd (App.classifyError error) || App.showApiKeyDialog s) None.

(** *** Story playback: the button, then [k] "scene ended" signals *)

Definition storyEvents (k : nat) : list VideoResult.Event :=
  VideoResult.PlayStoryClicked :: repeat VideoResult.VideoEnded k.

(** *** Forced overrides *)

Definition forcedOverrides (mode : GenerationMode) (model : VeoModel)
    (aspectRatio : AspectRatio) (resolution : Resolution) : Prop :=
  (mode = REFERENCES_TO_VIDEO ->
   model = VEO /\ aspectRatio = LANDSCAPE /\ resolution = P720)
  /\ (mode = EXTEND_VIDEO -> resolution = P720).

Definition formForced (s : PromptForm.FormState) : Prop :=
  forcedOverrides (PromptForm.generationMode s) (PromptForm.model s)
    (PromptForm.aspectRatio s) (PromptForm.resolution s).

Definition configForced (c : GenerateVideoParams.t) : Prop :=
  forcedOverrides (GenerateVideoParams.mode c) (GenerateVideoParams.model c)
    (GenerateVideoParams.aspectRatio c) (GenerateVideoParams.resolution c).

(** *** Submit eligibility *)

(** The code units below 256 that ECMAScript counts as white space or
    line terminator, which is what trimming removes: U+0009 to U+000D,
    U+0020 and U+00A0. *)
Definition strippedCodeUnits : list nat := [9; 10; 11; 12; 13; 32; 160].

(** Nothing but such code units: the texts that trim to nothing. *)
Definition whiteSpaceOnly (text : string) : Prop :=
  Forall (fun c => In (nat_of_ascii c) strippedCodeUnits)
    (list_ascii_of_string text).

(** Non-empty after trimming. *)
Definition promptGiven (s : PromptForm.FormState) : Prop :=
  ~ whiteSpaceOnly (PromptForm.prompt s).

Definition requirementsMet (s : PromptForm.FormState) : Prop :=
  match PromptForm.generationMode s with
  | TEXT_TO_VIDEO => promptGiven s
  | FRAMES_TO_VIDEO => PromptForm.startFrame s <> None
  | REFERENCES_TO_VIDEO =>
      promptGiven s /\ PromptForm.referenceImages s <> []
  | EXTEND_VIDEO => PromptForm.inputVideoObject s <> None
  end.

End Rules.

(** ** Sample data for the worked examples *)

Module Samples.
Import PromptForm.

Definition frame : ImageFile := mkImageFile "frame.png" "iVBORw0KGgo=".
Definition portrait : ImageFile := mkImageFile "hero.jpg" "/9j/4AAQSkZJRg==".

(** A fresh form, then the mode menu opened and a mode picked. *)
Definition formIn (mode : GenerationMode) : FormState :=
  run (mount None) [ToggleModeSelector; SelectMode mode].

(** Frames mode with a start frame and no end frame. *)
Definition framesReady : FormState :=
  run (formIn FRAMES_TO_VIDEO) [StartFrameSelected frame].

(** Frames mode with both frames, then the mode menu opened again. *)
Definition framesFull : FormState :=
  run (formIn FRAMES_TO_VIDEO)
    [StartFrameSelected frame; EndFrameSelected frame; ToggleModeSelector].

(** A line of dialogue typed for Elena, and the panel hidden again. *)
Definition dialogueHidden : FormState :=
  run (mount None)
    [ChangePrompt "A lab at night"; ToggleDialogue; ChangeSpeaker ELENA;
     ChangeDialogue "We are not alone."; ToggleDialogue].

(** A draft in references mode that asks for the fast model, portrait
    and 4K. *)
Definition oddDraft : GenerateVideoParams.t :=
  GenerateVideoParams.mk "Two scientists argue" VEO_FAST PORTRAIT P4K
    REFERENCES_TO_VIDEO None None [portrait] None None None false None NONE.

Definition textConfig (res : Resolution) : GenerateVideoParams.t :=
  GenerateVideoParams.mk "A lab at night" VEO_FAST LANDSCAPE res
    TEXT_TO_VIDEO None None [] None None None false
    (Some "We are not alone.") ELENA.

Definition clip : App.GeneratedVideo :=
  App.mkGeneratedVideo "blob:video-1" "mp4-bytes" "files/video-1".

Definition voice : App.GeneratedSpeech :=
  App.mkGeneratedSpeech "blob:audio-1".

(** A host with a selected key where the video is generated and the
    speech service fails. *)
Definition speechFails : App.World :=
  App.mkWorld (Some (App.Fulfilled true))
    (fun _ => App.Fulfilled clip)
    (fun _ _ => App.Rejected (App.ErrorObject "TTS quota exceeded"))
    false "1700000000000".

(** The same host with both services answering. *)
Definition allGood (stamp : string) : App.World :=
  App.mkWorld (Some (App.Fulfilled true))
    (fun _ => App.Fulfilled clip)
    (fun _ _ => App.Fulfilled voice)
    false stamp.

(** A host where no key is selected. *)
Definition noKey : App.World :=
  App.mkWorld (Some (App.Fulfilled false))
    (fun _ => App.Fulfilled clip)
    (fun _ _ => App.Fulfilled voice)
    false "1700000000000".

(** A page outside the studio host: [window.aistudio] is undefined. *)
Definition noHost : App.World :=
  App.mkWorld None
    (fun _ => App.Fulfilled clip)
    (fun _ _ => App.Fulfilled voice)
    false "1700000000000".

(** Three attempts that succeed, one after the other. *)
Definition threeAttempts : list App.Event :=
  [App.Generate (allGood "1700000000001") (textConfig P720);
   App.Generate (allGood "1700000000002") (textConfig P720);
   App.Generate (allGood "1700000000003") (textConfig P720)].

Definition scene (stamp : string) : StorySegment.t :=
  StorySegment.mk stamp "blob:video-1" (Some "blob:audio-1")
    "A lab at night" (Some "We are not alone.") ELENA.

Definition lastScene : StorySegment.t := scene "1700000000003".

(** The player as [App] renders it after the three attempts. *)
Definition player : VideoResult.Props :=
  VideoResult.mkProps lastScene
    (App.timeline (App.run App.initial threeAttempts)).

End Samples.

(** ** The key dialog and whole sessions ([App.tsx]) *)

Definition AppState_eqb (a b : AppState) : bool :=
  match a, b with
  | IDLE, IDLE | LOADING, LOADING | SUCCESS, SUCCESS | ERROR, ERROR => true
  | _, _ => false
  end.

Module Session.
Import App.

(** Calls made from the key dialog: the selector, then those of a retry. *)
Inductive DialogCall : Type :=
  | OpenSelectKey
  | Attempt (c : Call).

(** [handleApiKeyDialogContinue].  [selector] says how
    [window.aistudio.openSelectKey()] settles; [appState] and [lastConfig]
    are those of the render the button was clicked in. *)
Definition handleApiKeyDialogContinue (w : World) (selector : Settled unit)
    (s : AppData) : AppData * list DialogCall :=
  let closed := setShowApiKeyDialog false s in
  match aistudio w, selector with
  | Some _, Rejected _ => (closed, [OpenSelectKey])
  | host, _ =>
      let opened :=
        match host with
        | Some _ => [OpenSelectKey]
        | None => []
        end in
      if AppState_eqb (appState s) ERROR && present (lastConfig s)
      then (fst (handleRetry w closed),
            (opened ++ map Attempt (snd (handleRetry w closed)))%list)
      else (closed, opened)
  end.

(** What a user can do to the application, one thing after the other:
    every attempt runs to its end before the next event.  Attempts that
    overlap are the subject of [Overlap] below. *)
Inductive Event : Type :=
  | Core (e : App.Event)
  | DialogContinue (w : World) (selector : Settled unit).

Definition step (s : AppData) (e : Event) : AppData :=
  match e with
  | Core e => App.step s e
  | DialogContinue w selector =>
      fst (handleApiKeyDialogContinue w selector s)
  end.

Definition run (s : AppData) (events : list Event) : AppData :=
  fold_left step events s.

(** A session: the page opens in world [w], then the events happen. *)
Definition session (w : World) (events : list Event) : AppData :=
  run (fst (start w)) events.


(** What holds of the application between any two events of a session
    whose attempts run one at a time. *)
Definition consistent (s : AppData) : Prop :=
  Rules.pointsToLast s
  /\ (lastConfig s = None -> timeline s = [])
  /\ (timeline s = [] <-> lastVideoBlob s = None)
  /\ (timeline s = [] <-> lastVideoObject s = None)
  /\ (appState s = SUCCESS -> timeline s <> [])
  /\ (appState s = ERROR <-> errorMessage s <> None)
  /\ (forall message,
        errorMessage s = Some message -> JsString.isEmpty message = false).

End Session.

(** ** Attempts in flight ([App.tsx])

    [handleGenerate] is suspended twice, at [await hasSelectedApiKey()]
    and at [await Promise.all(...)].  While it is, the user can act and
    other attempts can run, since nothing in [App] keeps a second attempt
    from starting.  Here an attempt is cut at its two suspension points;
    the piece before the first one touches no state. *)

Module Overlap.
Import App.

(** The piece that runs once the key check has settled (at once where
    there is no host): the guard, then the four setters before [try]. *)
Definition begin (w : World) (params : GenerateVideoParams.t) (s : AppData)
    : AppData :=
  if fst (credentialGuard w) then
    let s := setAppState LOADING s in
    let s := setErrorMessage None s in
    let s := setLastConfig (Some params) s in
    setInitialFormValues None s
  else setShowApiKeyDialog true s.

(** The two promises of an attempt, joined. *)
Definition joined (w : World) (params : GenerateVideoParams.t)
    : Settled (GeneratedVideo * option GeneratedSpeech) :=
  promiseAll (videoRejectsFirst w) (generateVideo w params)
    (if wantsSpeech params
     then match generateSpeech w
                  (textOrEmpty (GenerateVideoParams.dialogue params))
                  (GenerateVideoParams.speaker params) with
          | Fulfilled r => Fulfilled (Some r)
          | Rejected e => Rejected e
          end
     else Fulfilled None).

(** The piece that runs once [Promise.all] has settled: the rest of the
    [try] block, or the [catch] clause. *)
Definition settle (w : World) (params : GenerateVideoParams.t) (s : AppData)
    : AppData :=
  match joined w params with
  | Fulfilled (videoResult, speechResult) =>
      let newSegment :=
        StorySegment.mk (now w) (objectUrl videoResult)
          (option_map audioUrl speechResult)
          (GenerateVideoParams.prompt params)
          (GenerateVideoParams.dialogue params)
          (GenerateVideoParams.speaker params) in
      let s := setTimeline (timeline s ++ [newSegment])%list s in
      let s := setCurrentSegmentId (Some (StorySegment.id newSegment)) s in
      let s := setLastVideoBlob (Some (blob videoResult)) s in
      let s := setLastVideoObject (Some (video videoResult)) s in
      setAppState SUCCESS s
  | Rejected error =>
      let (userFriendlyMessage, shouldOpenDialog) := classifyError error in
      let s := setErrorMessage (Some userFriendlyMessage) s in
      let s := setAppState ERROR s in
      if shouldOpenDialog then setShowApiKeyDialog true s else s
  end.

(** The application and the attempts that have begun and not settled. *)
Record State : Type := mkState {
  app : AppData;
  inFlight : list (World * GenerateVideoParams.t)
}.

Inductive Event : Type :=
  | Begin (w : World) (params : GenerateVideoParams.t)
  | Settle (k : nat)
  | CloseDialog
  | NewVideo
  | AddScene
  | TryAgainFromError
  | Extend (thrown : option Thrown).

(** [Begin] stands for a submit or a retry, of any config, at the moment
    its key check settles; [Settle k] for the end of the [k]-th attempt
    in flight; [CloseDialog] for "Continue" in the key dialog, whose
    retry, if any, is a [Begin] of its own. *)
Definition step (st : State) (e : Event) : State :=
  match e with
  | Begin w params =>
      mkState (begin w params (app st))
        (if fst (credentialGuard w)
         then (inFlight st ++ [(w, params)])%list
         else inFlight st)
  | Settle k =>
      match nth_error (inFlight st) k with
      | Some (w, params) =>
          mkState (settle w params (app st))
            (PromptForm.removeAt k (inFlight st))
      | None => st
      end
  | CloseDialog => mkState (setShowApiKeyDialog false (app st)) (inFlight st)
  | NewVideo => mkState (handleNewVideo (app st)) (inFlight st)
  | AddScene => mkState (handleAddScene (app st)) (inFlight st)
  | TryAgainFromError =>
      mkState (handleTryAgainFromError (app st)) (inFlight st)
  | Extend thrown => mkState (handleExtend thrown (app st)) (inFlight st)
  end.

Definition run (st : State) (events : list Event) : State :=
  fold_left step events st.

(** The page opens in world [w], then the events happen. *)
Definition session (w : World) (events : list Event) : AppData :=
  app (run (mkState (fst (start w)) []) events).

(** What holds of the application whatever overlaps. *)
Definition sound (s : AppData) : Prop :=
  Rules.pointsToLast s
  /\ (timeline s = [] <-> lastVideoBlob s = None)
  /\ (timeline s = [] <-> lastVideoObject s = None)
  /\ (appState s = SUCCESS -> timeline s <> [])
  /\ (appState s = ERROR -> errorMessage s <> None)
  /\ (appState s = IDLE \/ appState s = LOADING -> errorMessage s = None)
  /\ (forall message,
        errorMessage s = Some message -> JsString.isEmpty message = false).

End Overlap.

(** ** Reading an upload: [fileToBase64] ([PromptForm.tsx]) *)

Module FileReading.
Import App.

(** [s.split(sep)] for a one-character separator. *)
Fixpoint split (sep : ascii) (s : string) : list string :=
  match s with
  | EmptyString => [EmptyString]
  | String c rest =>
      if Ascii.eqb c sep then EmptyString :: split sep rest
      else match split sep rest with
           | [] => [String c EmptyString]
           | field :: fields => String c field :: fields
           end
  end.

(** How the [FileReader] ends: [onload] with the data URL, or [onerror]. *)
Inductive ReadOutcome : Type :=
  | Loaded (result : string)
  | ReadFailed.

(** [fileToBase64]: the text after the first comma of the data URL. *)
Definition fileToBase64 {T : Type} (wrap : File -> string -> T)
    (file : File) (outcome : ReadOutcome) : Settled T :=
  match outcome with
  | Loaded result =>
      match nth_error (split "," result) 1 with
      | Some base64 =>
          if JsString.isEmpty base64
          then Rejected (ErrorObject "Failed to read file as base64.")
          else Fulfilled (wrap file base64)
      | None => Rejected (ErrorObject "Failed to read file as base64.")
      end
  | ReadFailed => Rejected OtherValue
  end.

Definition fileToImageFile : File -> ReadOutcome -> Settled ImageFile :=
  fileToBase64 mkImageFile.

Definition fileToVideoFile : File -> ReadOutcome -> Settled VideoFile :=
  fileToBase64 mkVideoFile.

(** No comma in the text. *)
Fixpoint commaFree (s : string) : bool :=
  match s with
  | EmptyString => true
  | String c rest => negb (Ascii.eqb c ",") && commaFree rest
  end.

End FileReading.

(** ** Predicates on the form used by the properties *)

Module FormFacts.
Import PromptForm.

(** A looping request has a start frame and is made in frames mode. *)
Definition loopingSound (s : FormState) : Prop :=
  isLooping s = true ->
  present (startFrame s) = true /\ generationMode s = FRAMES_TO_VIDEO.

Definition draftLoopingSound (draft : option GenerateVideoParams.t) : Prop :=
  match draft with
  | Some p =>
      GenerateVideoParams.isLooping p = true ->
      present (GenerateVideoParams.startFrame p) = true
      /\ GenerateVideoParams.mode p = FRAMES_TO_VIDEO
  | None => True
  end.

(** Submitting, going back to the form with the config, submitting again. *)
Definition resubmit (p : GenerateVideoParams.t) : GenerateVideoParams.t :=
  handleSubmit (mount (Some p)).

(** Whether a form mounted with the config opens the dialogue panel. *)
Definition panelOpenFor (p : GenerateVideoParams.t) : bool :=
  truthyText (GenerateVideoParams.dialogue p)
  || negb (Speaker_eqb (GenerateVideoParams.speaker p) NONE).

(** The form a config is loaded into, before the mode effect. *)
Definition loaded (p : GenerateVideoParams.t) : FormState :=
  mkFormState
    (GenerateVideoParams.prompt p) (GenerateVideoParams.model p)
    (GenerateVideoParams.aspectRatio p) (GenerateVideoParams.resolution p)
    (GenerateVideoParams.mode p) (GenerateVideoParams.startFrame p)
    (GenerateVideoParams.endFrame p) (GenerateVideoParams.referenceImages p)
    (GenerateVideoParams.styleImage p) (GenerateVideoParams.inputVideo p)
    (GenerateVideoParams.inputVideoObject p)
    (GenerateVideoParams.isLooping p)
    (textOrEmpty (GenerateVideoParams.dialogue p))
    (GenerateVideoParams.speaker p) (panelOpenFor p) false false.

(** The overrides of the mode effect, applied to a config. *)
Definition forceConfig (p : GenerateVideoParams.t) : GenerateVideoParams.t :=
  GenerateVideoParams.mk
    (GenerateVideoParams.prompt p)
    (match GenerateVideoParams.mode p with
     | REFERENCES_TO_VIDEO => VEO
     | _ => GenerateVideoParams.model p
     end)
    (match GenerateVideoParams.mode p with
     | REFERENCES_TO_VIDEO => LANDSCAPE
     | _ => GenerateVideoParams.aspectRatio p
     end)
    (match GenerateVideoParams.mode p with
     | REFERENCES_TO_VIDEO | EXTEND_VIDEO => P720
     | _ => GenerateVideoParams.resolution p
     end)
    (GenerateVideoParams.mode p) (GenerateVideoParams.startFrame p)
    (GenerateVideoParams.endFrame p) (GenerateVideoParams.referenceImages p)
    (GenerateVideoParams.styleImage p) (GenerateVideoParams.inputVideo p)
    (GenerateVideoParams.inputVideoObject p)
    (GenerateVideoParams.isLooping p) (GenerateVideoParams.dialogue p)
    (GenerateVideoParams.speaker p).

(** Two configs that differ at most in how an absent dialogue is written. *)
Definition sameRequest (p q : GenerateVideoParams.t) : Prop :=
  GenerateVideoParams.prompt p = GenerateVideoParams.prompt q
  /\ GenerateVideoParams.model p = GenerateVideoParams.model q
  /\ GenerateVideoParams.aspectRatio p = GenerateVideoParams.aspectRatio q
  /\ GenerateVideoParams.resolution p = GenerateVideoParams.resolution q
  /\ GenerateVideoParams.mode p = GenerateVideoParams.mode q
  /\ GenerateVideoParams.startFrame p = GenerateVideoParams.startFrame q
  /\ GenerateVideoParams.endFrame p = GenerateVideoParams.endFrame q
  /\ GenerateVideoParams.referenceImages p
     = GenerateVideoParams.referenceImages q
  /\ GenerateVideoParams.styleImage p = GenerateVideoParams.styleImage q
  /\ GenerateVideoParams.inputVideo p = GenerateVideoParams.inputVideo q
  /\ GenerateVideoParams.inputVideoObject p
     = GenerateVideoParams.inputVideoObject q
  /\ GenerateVideoParams.isLooping p = GenerateVideoParams.isLooping q
  /\ GenerateVideoParams.speaker p = GenerateVideoParams.speaker q
  /\ textOrEmpty (GenerateVideoParams.dialogue p)
     = textOrEmpty (GenerateVideoParams.dialogue q).

End FormFacts.

(** ** Predicates on the player used by the properties *)

Module PlayerFacts.
Import VideoResult.

(** While a story plays, the index is inside the timeline, the scene
    viewed is the one at the index, and there are two scenes or more. *)
Definition inStep (props : Props) (s : PlaybackState) : Prop :=
  isPlayingStory s = true ->
  storyIndex s < List.length (timeline props)
  /\ nth_error (timeline props) (storyIndex s) = Some (viewingSegment s)
  /\ 2 <= List.length (timeline props).

End PlayerFacts.

(** ** What [App] renders in its main area ([App.tsx]) *)

Module Screens.
Import App.

Inductive Screen : Type :=
  | Form (initialValues : option GenerateVideoParams.t)
  | Loading
  | Result (segment : StorySegment.t) (extendable : bool)
  | DataMissing
  | ErrorScreen (message : string)
  | Nothing.

(** The conditional of the [main] element.  In the Success branch the
    result and the "data is missing" notice exclude each other; in the
    Error branch nothing is rendered without a truthy message. *)
Definition render (s : AppData) : Screen :=
  match appState s with
  | IDLE => Form (initialFormValues s)
  | LOADING => Loading
  | SUCCESS =>
      match currentSegment s with
      | Some segment => Result segment (canExtend s)
      | None => DataMissing
      end
  | ERROR =>
      if truthyText (errorMessage s)
      then ErrorScreen (textOrEmpty (errorMessage s))
      else Nothing
  end.

(** A segment has an audio track exactly when it has a dialogue and a
    speaker. *)
Definition audioMatches (segment : StorySegment.t) : Prop :=
  StorySegment.audioUrl segment <> None <->
  truthyText (StorySegment.dialogue segment)
  && negb (Speaker_eqb (StorySegment.speaker segment) NONE) = true.

End Screens.

(** ** More sample data *)

Module MoreSamples.

(** A host whose key is rejected by the service. *)
Definition keyRejected : App.World :=
  App.mkWorld (Some (App.Fulfilled true))
    (fun _ => App.Rejected (App.ErrorObject "API key not valid. Please pass a valid API key."))
    (fun _ _ => App.Fulfilled Samples.voice)
    false "1700000000000".

(** A 720p attempt that succeeded. *)
Definition after720 : App.AppData :=
  fst (App.handleGenerate (Samples.allGood "1700000000001")
         (Samples.textConfig P720) App.initial).

(** A prompt of a space, a no-break space, a tab and a line feed. *)
Definition blankPrompt : string :=
  String " " (String (ascii_of_nat 160)
    (String (ascii_of_nat 9) (String (ascii_of_nat 10) EmptyString))).

(** A fresh form with that prompt typed. *)
Definition blankForm : PromptForm.FormState :=
  PromptForm.run (PromptForm.mount None) [PromptForm.ChangePrompt blankPrompt].

(** Two attempts begun before either ends; the first succeeds, the user
    starts a new story, then the second succeeds. *)
Definition lateSuccess : list Overlap.Event :=
  [Overlap.Begin (Samples.allGood "1700000000001") (Samples.textConfig P720);
   Overlap.Begin (Samples.allGood "1700000000002") (Samples.textConfig P720);
   Overlap.Settle 0; Overlap.NewVideo; Overlap.Settle 0].

(** Two attempts begun before either ends; the first fails, then the
    second succeeds. *)
Definition failThenSucceed : list Overlap.Event :=
  [Overlap.Begin keyRejected (Samples.textConfig P720);
   Overlap.Begin (Samples.allGood "1700000000002") (Samples.textConfig P720);
   Overlap.Settle 0; Overlap.Settle 0].

(** A blocked first submit. *)
Definition blocked : App.AppData :=
  fst (App.handleGenerate Samples.noKey (Samples.textConfig P720)
         App.initial).

(** A failed attempt with the key dialog open. *)
Definition keyError : App.AppData :=
  fst (App.handleGenerate keyRejected (Samples.textConfig P720) App.initial).

(** A config sent with the dialogue panel open and left empty. *)
Definition emptyDialogue : GenerateVideoParams.t :=
  GenerateVideoParams.mk "A lab at night" VEO_FAST LANDSCAPE P1080
    TEXT_TO_VIDEO None None [] None None None false (Some "") NONE.

(** A references config with Arun speaking. *)
Definition referenceScene : GenerateVideoParams.t :=
  GenerateVideoParams.mk "Arun enters the lab" VEO LANDSCAPE P720
    REFERENCES_TO_VIDEO None None [Samples.portrait] (Some Samples.frame)
    None None false (Some "Who is there?") ARUN.

End MoreSamples.

(** * Properties *)

(** ** Facts about the string operations *)

Module StringFacts.
Import JsString.

Lemma prefix_split (p s : string) :
  prefix p s = true <-> exists rest, s = p ++ rest.
Proof.
  revert s; induction p as [|c p IH]; intros s.
  - split; [intros _; now exists s | intros _; now destruct s].
  - destruct s as [|d s]; simpl.
    + split; [discriminate | intros [rest H]; discriminate].
    + destruct (Ascii.ascii_dec c d) as [->|Hcd].
      * split.
        -- intros H. apply IH in H. destruct H as [rest ->]. now exists rest.
        -- intros [rest H]. apply IH. exists rest. now inversion H.
      * split; [discriminate | intros [rest H]; congruence].
Qed.

(** [includes] finds exactly the strings that have the pattern inside. *)
Lemma includes_split (s pat : string) :
  includes s pat = true <-> exists before rest, s = before ++ pat ++ rest.
Proof.
  induction s as [|c s IH]; cbn [includes].
  - rewrite orb_false_r, prefix_split. split.
    + intros [rest H]. now exists "", rest.
    + intros [before [rest H]].
      destruct before; [now exists rest | discriminate].
  - rewrite orb_true_iff, prefix_split, IH. split.
    + intros [[rest H]|[before [rest H]]].
      * now exists "", rest.
      * exists (String c before), rest. simpl. now rewrite H.
    + intros [before [rest H]]. destruct before as [|d before].
      * left. now exists rest.
      * right. simpl in H. inversion H. now exists before, rest.
Qed.

Lemma toLowerCase_append (a b : string) :
  toLowerCase (a ++ b) = toLowerCase a ++ toLowerCase b.
Proof. induction a as [|c a IH]; simpl; [reflexivity | now rewrite IH]. Qed.

Lemma toLowerCase_append_inv (s x y : string) :
  toLowerCase s = x ++ y ->
  exists s1 s2, s = s1 ++ s2 /\ toLowerCase s1 = x /\ toLowerCase s2 = y.
Proof.
  revert s; induction x as [|c x IH]; intros s H; simpl in H.
  - now exists "", s.
  - destruct s as [|d s]; [discriminate|]. simpl in H. inversion H as [[Hc Hs]].
    destruct (IH s Hs) as [s1 [s2 [-> [H1 H2]]]].
    exists (String d s1), s2. simpl. now rewrite H1, H2.
Qed.

(** Searching the lower-cased text for a lower-case pattern is a search
    that ignores case. *)
Lemma includes_ignoring_case (s pat : string) :
  includes (toLowerCase s) pat = true <->
  exists before hit rest,
    s = before ++ hit ++ rest /\ toLowerCase hit = pat.
Proof.
  rewrite includes_split. split.
  - intros [b' [r' H]].
    destruct (toLowerCase_append_inv _ _ _ H) as [before [tl [-> [_ H2]]]].
    destruct (toLowerCase_append_inv _ _ _ H2) as [hit [rest [-> [H3 _]]]].
    now exists before, hit, rest.
  - intros [before [hit [rest [-> <-]]]].
    exists (toLowerCase before), (toLowerCase rest).
    now rewrite !toLowerCase_append.
Qed.

Lemma reverse_empty (s : string) : isEmpty (reverse s) = isEmpty s.
Proof.
  destruct s as [|c s]; simpl; [reflexivity|].
  now destruct (reverse s).
Qed.

Lemma blank_append (a b : string) : blank (a ++ b) = blank a && blank b.
Proof.
  induction a as [|c a IH]; simpl; [reflexivity|].
  now rewrite IH, andb_assoc.
Qed.

Lemma blank_reverse (s : string) : blank (reverse s) = blank s.
Proof.
  induction s as [|c s IH]; simpl; [reflexivity|].
  rewrite blank_append, IH. simpl. rewrite andb_true_r. apply andb_comm.
Qed.

Lemma trimStart_empty (s : string) : isEmpty (trimStart s) = blank s.
Proof.
  induction s as [|c s IH]; simpl; [reflexivity|].
  destruct (isWhiteSpace c); simpl; [exact IH | reflexivity].
Qed.

Lemma blank_trimStart (s : string) : blank (trimStart s) = blank s.
Proof.
  induction s as [|c s IH]; simpl; [reflexivity|].
  destruct (isWhiteSpace c) eqn:E; simpl; [exact IH | now rewrite E].
Qed.

(** A string trims to nothing exactly when it is white space only. *)
Lemma trim_empty (s : string) : isEmpty (trim s) = blank s.
Proof.
  unfold trim, trimEnd.
  now rewrite reverse_empty, trimStart_empty, blank_reverse, blank_trimStart.
Qed.

Lemma isEmpty_true (s : string) : isEmpty s = true <-> s = "".
Proof. destruct s; simpl; split; congruence. Qed.

(** [isWhiteSpace] accepts the seven code units of the list, no other. *)
Lemma isWhiteSpace_stripped (c : ascii) :
  isWhiteSpace c = true <-> In (nat_of_ascii c) Rules.strippedCodeUnits.
Proof.
  unfold isWhiteSpace, Rules.strippedCodeUnits. cbn [In].
  rewrite !orb_true_iff, andb_true_iff, Nat.leb_le, Nat.leb_le,
    !Nat.eqb_eq.
  lia.
Qed.

Lemma blank_whiteSpaceOnly (s : string) :
  blank s = true <-> Rules.whiteSpaceOnly s.
Proof.
  unfold Rules.whiteSpaceOnly.
  induction s as [|c s IH]; cbn [blank list_ascii_of_string].
  - split; [constructor | reflexivity].
  - rewrite andb_true_iff, isWhiteSpace_stripped, IH. split.
    + intros [Hc Hs]. now constructor.
    + intros H. inversion H; subst. now split.
Qed.

(** Trimming leaves nothing exactly of the texts made of the stripped
    code units. *)
Lemma trim_nothing (s : string) :
  trim s = "" <-> Rules.whiteSpaceOnly s.
Proof.
  now rewrite <- isEmpty_true, trim_empty, blank_whiteSpaceOnly.
Qed.

End StringFacts.

(** What [trim] does to a line with white space at both ends and inside,
    and to a line of white space only, the no-break space included. *)
Example trim_both_ends :
  JsString.trim
    (String (ascii_of_nat 160) (String (ascii_of_nat 9) " a lab  at night ")
     ++ String (ascii_of_nat 10) (String (ascii_of_nat 160) EmptyString))
  = "a lab  at night".
Proof. reflexivity. Qed.

Example trim_white_space_only : JsString.trim MoreSamples.blankPrompt = "".
Proof. reflexivity. Qed.

Example toLowerCase_latin1 :
  JsString.toLowerCase
    (String (ascii_of_nat 201) (String (ascii_of_nat 215) "Permission"))
  = String (ascii_of_nat 233) (String (ascii_of_nat 215) "permission").
Proof. reflexivity. Qed.

(** ** Error classification *)

Section Classification.
Import JsString.

Let lowered : toLowerCase "permission denied" = "permission denied".
Proof. reflexivity. Qed.

(** C2. The classification in the [catch] clause of [handleGenerate] is
    the table of the specification read top to bottom, first match
    winning: the model-not-found pattern, then the four invalid-key
    patterns (one of them ignoring case), then the generic row, whose
    message is "Generation failed: " followed by the raw text.  The
    re-selection flag is set for the first two rows and only for them. *)
Theorem error_classification (error : App.Thrown) :
  App.classifyError error =
    (Rules.userMessage (Rules.classify (App.rawMessage error))
       (App.rawMessage error),
     Rules.triggersReselection (Rules.classify (App.rawMessage error))).
Proof.
  unfold App.classifyError, Rules.classify, Rules.rows.
  cbn [Rules.firstMatch existsb Rules.matches].
  rewrite lowered.
  generalize (App.rawMessage error) as raw; intro raw.
  destruct (includes raw "Requested entity was not found."); [reflexivity|].
  destruct (includes raw "API_KEY_INVALID"); [reflexivity|].
  destruct (includes raw "API key not valid"); [reflexivity|].
  destruct (includes (toLowerCase raw) "permission denied"); [reflexivity|].
  destruct (includes raw "403"); reflexivity.
Qed.

End Classification.

Example classify_not_found :
  App.classifyError (App.ErrorObject "Requested entity was not found.")
  = (App.modelNotFoundMessage, true).
Proof. reflexivity. Qed.

Example classify_403 :
  App.classifyError (App.ErrorObject "got status: 403 Forbidden")
  = (App.invalidKeyMessage, true).
Proof. reflexivity. Qed.

Example classify_permission_any_case :
  App.classifyError (App.ErrorObject "PERMISSION_DENIED: Permission Denied on resource")
  = (App.invalidKeyMessage, true).
Proof. reflexivity. Qed.

Example classify_boom :
  App.classifyError (App.ErrorObject "boom")
  = ("Generation failed: boom", false).
Proof. reflexivity. Qed.

Example classify_first_row_wins :
  App.classifyError
    (App.ErrorObject "403: Requested entity was not found.")
  = (App.modelNotFoundMessage, true).
Proof. reflexivity. Qed.

Example classify_non_error_value :
  App.classifyError App.OtherValue
  = ("Generation failed: An unknown error occurred.", false).
Proof. reflexivity. Qed.

(** ** Submit gating *)

Section SubmitGating.
Import PromptForm.

Lemma promptGiven_trim (s : FormState) :
  JsString.isEmpty (JsString.trim (prompt s)) = false <-> Rules.promptGiven s.
Proof.
  unfold Rules.promptGiven.
  rewrite <- StringFacts.trim_nothing, <- StringFacts.isEmpty_true.
  destruct (JsString.isEmpty (JsString.trim (prompt s))); split; congruence.
Qed.

Lemma no_assets (s : FormState) :
  (List.length (referenceImages s) =? 0) = false <-> referenceImages s <> [].
Proof.
  destruct (referenceImages s); simpl; split; congruence.
Qed.

Lemma absent_iff {A : Type} (x : option A) :
  negb (present x) = false <-> x <> None.
Proof. destruct x; simpl; split; congruence. Qed.

(** C3. For every state of the form, the submit button is enabled
    exactly when the fields the mode requires are there: a prompt that is
    not empty once trimmed, that is, one with a code unit that is not
    white space (text mode), a start frame (frames mode), both such a
    prompt and a reference image (references mode), the handle of a
    generated video (extend mode).  A disabled button always comes
    with a reason; in references mode the reason names both fields when
    both are missing, and otherwise the one that is.  The end frame in
    frames mode and the prompt in extend mode have no say. *)
Theorem submit_gating (s : FormState) :
  (isSubmitDisabled s = false <-> Rules.requirementsMet s)
  /\ (isSubmitDisabled s = true -> tooltipText s <> "")
  /\ (generationMode s = TEXT_TO_VIDEO -> isSubmitDisabled s = true ->
      tooltipText s = "Please enter a visual description.")
  /\ (generationMode s = FRAMES_TO_VIDEO -> isSubmitDisabled s = true ->
      tooltipText s = "A start frame is required.")
  /\ (generationMode s = REFERENCES_TO_VIDEO ->
      ~ Rules.promptGiven s -> referenceImages s = [] ->
      tooltipText s = "Please enter a prompt and add at least one asset.")
  /\ (generationMode s = REFERENCES_TO_VIDEO ->
      ~ Rules.promptGiven s -> referenceImages s <> [] ->
      tooltipText s = "Please enter a prompt.")
  /\ (generationMode s = REFERENCES_TO_VIDEO ->
      Rules.promptGiven s -> referenceImages s = [] ->
      tooltipText s = "At least one reference asset is required.")
  /\ (generationMode s = EXTEND_VIDEO -> isSubmitDisabled s = true ->
      tooltipText s =
        "An input video from a previous generation is required to extend.")
  /\ (generationMode s = FRAMES_TO_VIDEO ->
      forall frame, submitGate (setEndFrame frame s) = submitGate s)
  /\ (generationMode s = EXTEND_VIDEO ->
      forall text, submitGate (setPrompt text s) = submitGate s).
Proof.
  assert (Hend : generationMode s = FRAMES_TO_VIDEO ->
            forall frame, submitGate (setEndFrame frame s) = submitGate s).
  { intros Hmode frame. unfold submitGate. cbn. now rewrite Hmode. }
  assert (Htext : generationMode s = EXTEND_VIDEO ->
            forall text, submitGate (setPrompt text s) = submitGate s).
  { intros Hmode text. unfold submitGate. cbn. now rewrite Hmode. }
  revert Hend Htext.
  unfold isSubmitDisabled, tooltipText.
  unfold submitGate, Rules.requirementsMet.
  pose proof (promptGiven_trim s) as Hp.
  pose proof (no_assets s) as Ha.
  pose proof (absent_iff (startFrame s)) as Hs.
  pose proof (absent_iff (inputVideoObject s)) as Hv.
  destruct (generationMode s) eqn:Hmode; cbn [fst snd]; intros Hend Htext.
  - destruct (JsString.isEmpty (JsString.trim (prompt s)));
      repeat split; intros; try congruence; try tauto; auto.
  - destruct (negb (present (startFrame s)));
      repeat split; intros; try congruence; try tauto; auto.
  - destruct (JsString.isEmpty (JsString.trim (prompt s)));
      destruct (List.length (referenceImages s) =? 0);
      repeat split; intros; cbn [orb andb] in *;
      try congruence; try tauto; auto.
  - destruct (negb (present (inputVideoObject s)));
      repeat split; intros; try congruence; try tauto; auto.
Qed.

End SubmitGating.

(** In text mode an empty prompt blocks submission, and so does a prompt
    of a space, a no-break space, a tab and a line feed; in frames mode a
    start frame alone allows it; in references mode the reason names both
    missing fields. *)
Lemma submit_gating_witness :
  PromptForm.isSubmitDisabled (PromptForm.mount None) = true
  /\ PromptForm.isSubmitDisabled MoreSamples.blankForm = true
  /\ Rules.requirementsMet Samples.framesReady
  /\ PromptForm.tooltipText (Samples.formIn REFERENCES_TO_VIDEO)
     = "Please enter a prompt and add at least one asset.".
Proof.
  split; [reflexivity|]. split; [|split].
  - destruct (PromptForm.isSubmitDisabled MoreSamples.blankForm) eqn:Hgate;
      [reflexivity|].
    apply (proj1 (submit_gating MoreSamples.blankForm)) in Hgate.
    exfalso. apply Hgate.
    apply StringFacts.blank_whiteSpaceOnly. vm_compute. reflexivity.
  - apply (proj1 (submit_gating Samples.framesReady)). reflexivity.
  - apply (submit_gating (Samples.formIn REFERENCES_TO_VIDEO)).
    + reflexivity.
    + intros given. apply given.
      apply StringFacts.blank_whiteSpaceOnly. vm_compute. reflexivity.
    + reflexivity.
Defined.

(** ** Mode switch *)

Section ModeSwitch.
Import PromptForm.

Lemma modeRulesEffect_assets (s : FormState) :
  Rules.assetsCleared s -> Rules.assetsCleared (modeRulesEffect s).
Proof.
  unfold modeRulesEffect, Rules.assetsCleared.
  destruct (generationMode s) eqn:Hmode; cbn; rewrite ?Hmode; cbn; tauto.
Qed.

Lemma modeRulesEffect_mode (s : FormState) :
  generationMode (modeRulesEffect s) = generationMode s.
Proof.
  unfold modeRulesEffect.
  destruct (generationMode s) eqn:Hmode; cbn; rewrite ?Hmode; cbn;
    rewrite ?Hmode; reflexivity.
Qed.

Lemma handleSelectMode_clears (mode : GenerationMode) (s : FormState) :
  generationMode (handleSelectMode mode s) = mode
  /\ Rules.assetsCleared (handleSelectMode mode s).
Proof. unfold Rules.assetsCleared. cbn. tauto. Qed.

(** C5. Picking a mode in the mode menu leaves a form in that mode that
    holds no asset: start frame, end frame, reference images, style
    image, input video file and input video handle are empty and the
    looping flag is off, whatever the form held before. *)
Theorem mode_switch_clears_assets (s : FormState) (mode : GenerationMode) :
  offered (SelectMode mode) s = true ->
  generationMode (step s (SelectMode mode)) = mode
  /\ Rules.assetsCleared (step s (SelectMode mode)).
Proof.
  intros Hoffered. unfold step. rewrite Hoffered.
  cbn [handle].
  destruct (handleSelectMode_clears mode s) as [Hmode Hclear].
  destruct (GenerationMode_eqb _ _).
  - now split.
  - split.
    + now rewrite modeRulesEffect_mode.
    + now apply modeRulesEffect_assets.
Qed.

End ModeSwitch.

(** Both frames are set in frames mode; after the switch to references mode
    nothing of them is left. *)
Lemma mode_switch_clears_assets_witness :
  PromptForm.startFrame Samples.framesFull = Some Samples.frame
  /\ PromptForm.generationMode
       (PromptForm.step Samples.framesFull
          (PromptForm.SelectMode REFERENCES_TO_VIDEO))
     = REFERENCES_TO_VIDEO
  /\ Rules.assetsCleared
       (PromptForm.step Samples.framesFull
          (PromptForm.SelectMode REFERENCES_TO_VIDEO)).
Proof.
  split; [reflexivity|].
  apply (mode_switch_clears_assets Samples.framesFull REFERENCES_TO_VIDEO).
  reflexivity.
Defined.

(** ** Extend eligibility *)

(** C8. [canExtend] holds exactly when there is a last config and its
    resolution is 720p; with a last config of 1080p or 4K it is false. *)
Theorem extend_eligibility (s : App.AppData) :
  (App.canExtend s = true <->
   exists config,
     App.lastConfig s = Some config
     /\ GenerateVideoParams.resolution config = P720)
  /\ (forall config,
        App.lastConfig s = Some config ->
        GenerateVideoParams.resolution config = P1080
        \/ GenerateVideoParams.resolution config = P4K ->
        App.canExtend s = false).
Proof.
  unfold App.canExtend. split.
  - destruct (App.lastConfig s) as [config|].
    + split.
      * intros Hres. exists config. split; [reflexivity|].
        now destruct (GenerateVideoParams.resolution config).
      * intros [c [Hc Hr]]. inversion Hc; subst. now rewrite Hr.
    + split; [discriminate | intros [c [Hc _]]; discriminate].
  - intros config -> [Hres|Hres]; now rewrite Hres.
Qed.

(** After a 720p attempt the story can be extended, after a 4K one not. *)
Lemma extend_eligibility_witness :
  App.canExtend
    (fst (App.handleGenerate (Samples.allGood "1") (Samples.textConfig P720)
            App.initial)) = true
  /\ App.canExtend
       (fst (App.handleGenerate (Samples.allGood "1") (Samples.textConfig P4K)
               App.initial)) = false.
Proof.
  split.
  - apply (extend_eligibility _). exists (Samples.textConfig P720).
    split; reflexivity.
  - apply (proj2 (extend_eligibility _) (Samples.textConfig P4K)).
    + reflexivity.
    + right. reflexivity.
Defined.

(** ** Frame extraction *)

(** C9. The seek target is the duration minus 0.1 when the duration
    exceeds 0.5, and 0 otherwise; a duration of 10 gives 9.9 and one of 0.3
    gives 0.  All numbers are binary64, as in the browser. *)
Theorem seek_rule :
  (forall d,
     PrimFloat.ltb 0.5%float d = true ->
     FrameExtraction.seekTarget d = PrimFloat.sub d 0.1%float)
  /\ (forall d,
        PrimFloat.ltb 0.5%float d = false ->
        FrameExtraction.seekTarget d = 0%float)
  /\ FrameExtraction.seekTarget 10%float = 9.9%float
  /\ FrameExtraction.seekTarget 0.3%float = 0%float.
Proof.
  unfold FrameExtraction.seekTarget, FrameExtraction.onloadeddata.
  cbn [FrameExtraction.duration].
  repeat split.
  - intros d ->. reflexivity.
  - intros d ->. reflexivity.
Qed.

(** A clip of 2.5 seconds is sought at 2.4; one of exactly 0.5 at 0. *)
Lemma seek_rule_witness :
  FrameExtraction.seekTarget 2.5%float = 2.4%float
  /\ FrameExtraction.seekTarget 0.5%float = 0%float.
Proof.
  split.
  - rewrite (proj1 seek_rule 2.5%float); reflexivity.
  - apply (proj1 (proj2 seek_rule) 0.5%float). reflexivity.
Defined.

(** ** Hidden dialogue panel *)

(** C10. A form submitted while the dialogue panel is hidden yields a
    config with no dialogue and speaker NONE, whatever was typed before;
    the attempt made with it does not ask for speech and calls the speech
    service not once. *)
Theorem hidden_dialogue_no_speech
    (s : PromptForm.FormState) (w : App.World) (a : App.AppData) :
  PromptForm.showDialogueInput s = false ->
  GenerateVideoParams.dialogue (PromptForm.handleSubmit s) = None
  /\ GenerateVideoParams.speaker (PromptForm.handleSubmit s) = NONE
  /\ App.wantsSpeech (PromptForm.handleSubmit s) = false
  /\ forallb (fun c => negb (App.isSpeechCall c))
       (snd (App.handleGenerate w (PromptForm.handleSubmit s) a)) = true.
Proof.
  intros Hhidden.
  assert (Hno : App.wantsSpeech (PromptForm.handleSubmit s) = false).
  { unfold App.wantsSpeech, PromptForm.handleSubmit. cbn.
    now rewrite Hhidden. }
  split; [|split; [|split]].
  - unfold PromptForm.handleSubmit. cbn. now rewrite Hhidden.
  - unfold PromptForm.handleSubmit. cbn. now rewrite Hhidden.
  - exact Hno.
  - unfold App.handleGenerate, App.credentialGuard. rewrite Hno.
    destruct (App.aistudio w) as [[[|]|]|]; cbn [negb]; try reflexivity.
    + destruct (App.promiseAll _ _ _) as [[v sp]|e];
        [|destruct (App.classifyError e)]; reflexivity.
    + destruct (App.promiseAll _ _ _) as [[v sp]|e];
        [|destruct (App.classifyError e)]; reflexivity.
Qed.

(** Dialogue was typed for Elena and the panel hidden again: the config
    carries none of it and only the video call is made. *)
Lemma hidden_dialogue_no_speech_witness :
  PromptForm.dialogue Samples.dialogueHidden = "We are not alone."
  /\ PromptForm.speaker Samples.dialogueHidden = ELENA
  /\ GenerateVideoParams.dialogue
       (PromptForm.handleSubmit Samples.dialogueHidden) = None
  /\ GenerateVideoParams.speaker
       (PromptForm.handleSubmit Samples.dialogueHidden) = NONE.
Proof.
  split; [reflexivity|]. split; [reflexivity|].
  destruct (hidden_dialogue_no_speech Samples.dialogueHidden
              (Samples.allGood "1") App.initial) as (Hd & Hs & _).
  - reflexivity.
  - now split.
Defined.

(** ** Forced overrides *)

Section ForcedOverrides.
Import PromptForm.

Lemma GenerationMode_eqb_eq (a b : GenerationMode) :
  GenerationMode_eqb a b = true <-> a = b.
Proof. destruct a, b; simpl; split; congruence. Qed.

(** The mode effect establishes the overrides, whatever it starts from. *)
Lemma modeRulesEffect_forces (s : FormState) :
  Rules.formForced (modeRulesEffect s).
Proof.
  unfold Rules.formForced, Rules.forcedOverrides, modeRulesEffect.
  destruct (generationMode s) eqn:Hmode; cbn; rewrite ?Hmode; cbn;
    rewrite ?Hmode; split; intros; try discriminate; auto.
Qed.

(** A handler that keeps the mode and leaves alone what the mode locks
    keeps the overrides. *)
Lemma forced_transfer (s s' : FormState) :
  generationMode s' = generationMode s ->
  (isReferenceMode s = true ->
   model s' = model s /\ aspectRatio s' = aspectRatio s) ->
  (isExtendMode s || isReferenceMode s = true ->
   resolution s' = resolution s) ->
  Rules.formForced s -> Rules.formForced s'.
Proof.
  unfold Rules.formForced, Rules.forcedOverrides, isReferenceMode,
    isExtendMode.
  intros -> Hlocked Hres [Href Hext].
  destruct (generationMode s); cbn in *; split; intros; try discriminate.
  - destruct Hlocked as [-> ->]; [reflexivity|].
    rewrite Hres by reflexivity. now apply Href.
  - rewrite Hres by reflexivity. now apply Hext.
Qed.

Lemma step_forced (s : FormState) (e : Event) :
  Rules.formForced s -> Rules.formForced (step s e).
Proof.
  intros Hs. unfold step.
  destruct (offered e s) eqn:Hoffered; [|exact Hs].
  destruct (GenerationMode_eqb _ _) eqn:Hsame;
    [|apply modeRulesEffect_forces].
  apply GenerationMode_eqb_eq in Hsame.
  apply forced_transfer with (s := s); [exact Hsame | | | exact Hs].
  - intros Href.
    destruct e; try (split; reflexivity); unfold offered in Hoffered;
      rewrite Href, andb_false_r in Hoffered; discriminate.
  - intros Hlock.
    destruct e; try reflexivity. unfold offered in Hoffered.
    rewrite Hlock, andb_false_r in Hoffered. discriminate.
Qed.

Lemma run_forced (events : list Event) (s : FormState) :
  Rules.formForced s -> Rules.formForced (run s events).
Proof.
  revert s. induction events as [|e events IH]; intros s Hs; [exact Hs|].
  cbn. apply IH. now apply step_forced.
Qed.

(** A locked control raises no event. *)
Lemma locked_not_offered (s : FormState) :
  isReferenceMode s = true ->
  forall v a r,
    step s (ChangeModel v) = s /\ step s (ChangeAspectRatio a) = s
    /\ step s (ChangeResolution r) = s.
Proof.
  intros Href v a r. unfold step, offered. rewrite Href.
  now rewrite orb_true_r, !andb_false_r.
Qed.

(** C4. In every state a form can reach from its mounting, whatever it
    was mounted with and whatever was done to it since, references mode
    comes with the high-quality model, landscape and 720p, and extend
    mode with 720p; the same holds of the config a submission hands over.
    In references mode the three selects are disabled: a change of model,
    aspect ratio or resolution leaves the form as it is. *)
Theorem forced_overrides
    (initialValues : option GenerateVideoParams.t) (events : list Event) :
  Rules.formForced (run (mount initialValues) events)
  /\ Rules.configForced (handleSubmit (run (mount initialValues) events))
  /\ (isReferenceMode (run (mount initialValues) events) = true ->
      forall v a r,
        step (run (mount initialValues) events) (ChangeModel v)
        = run (mount initialValues) events
        /\ step (run (mount initialValues) events) (ChangeAspectRatio a)
           = run (mount initialValues) events
        /\ step (run (mount initialValues) events) (ChangeResolution r)
           = run (mount initialValues) events).
Proof.
  assert (H : Rules.formForced (run (mount initialValues) events)).
  { apply run_forced. apply modeRulesEffect_forces. }
  split; [exact H|]. split; [exact H|].
  apply locked_not_offered.
Qed.

End ForcedOverrides.

(** A draft in references mode that asks for the fast model, portrait and
    4K is mounted with the fixed triple, and an attempt to pick 1080p in
    the settings panel changes nothing. *)
Lemma forced_overrides_witness :
  PromptForm.model
    (PromptForm.run (PromptForm.mount (Some Samples.oddDraft)) []) = VEO
  /\ PromptForm.aspectRatio
       (PromptForm.run (PromptForm.mount (Some Samples.oddDraft)) [])
     = LANDSCAPE
  /\ PromptForm.resolution
       (PromptForm.run (PromptForm.mount (Some Samples.oddDraft))
          [PromptForm.ToggleSettings; PromptForm.ChangeResolution P1080])
     = P720.
Proof.
  destruct (forced_overrides (Some Samples.oddDraft) []) as ([H _] & _).
  destruct (forced_overrides (Some Samples.oddDraft)
              [PromptForm.ToggleSettings; PromptForm.ChangeResolution P1080])
    as ([H' _] & _).
  assert (Hmode : PromptForm.generationMode
                    (PromptForm.run (PromptForm.mount (Some Samples.oddDraft)) [])
                  = REFERENCES_TO_VIDEO) by (vm_compute; reflexivity).
  assert (Hmode' : PromptForm.generationMode
                     (PromptForm.run (PromptForm.mount (Some Samples.oddDraft))
                        [PromptForm.ToggleSettings;
                         PromptForm.ChangeResolution P1080])
                   = REFERENCES_TO_VIDEO) by (vm_compute; reflexivity).
  destruct (H Hmode) as (Hm & Ha & _).
  destruct (H' Hmode') as (_ & _ & Hr).
  split; [exact Hm|]. split; [exact Ha | exact Hr].
Defined.

(** ** All-or-nothing join *)

Section Attempt.
Import App.

Lemma In_calls_video (checked rest : list Call) (c : Call) :
  In c (checked ++ [c] ++ rest).
Proof. apply in_or_app. right. now left. Qed.

(** C1. Take an attempt that passes the credential guard and wants
    speech, so that both the video call and the speech call are made.  If
    either of them fails, the attempt ends in the Error state with the
    message for a failure that did occur; the timeline and the
    current-segment pointer are as before, and so are the retained video
    blob and video object: what the other call produced is in no field of
    the resulting state. *)
Theorem all_or_nothing
    (w : World) (params : GenerateVideoParams.t) (s : AppData) :
  fst (credentialGuard w) = true ->
  wantsSpeech params = true ->
  (exists e, generateVideo w params = Rejected e)
  \/ (exists e,
        generateSpeech w (textOrEmpty (GenerateVideoParams.dialogue params))
          (GenerateVideoParams.speaker params) = Rejected e) ->
  In (GenerateVideo params) (snd (handleGenerate w params s))
  /\ In (GenerateSpeech (textOrEmpty (GenerateVideoParams.dialogue params))
           (GenerateVideoParams.speaker params))
       (snd (handleGenerate w params s))
  /\ timeline (fst (handleGenerate w params s)) = timeline s
  /\ currentSegmentId (fst (handleGenerate w params s)) = currentSegmentId s
  /\ appState (fst (handleGenerate w params s)) = ERROR
  /\ lastVideoBlob (fst (handleGenerate w params s)) = lastVideoBlob s
  /\ lastVideoObject (fst (handleGenerate w params s)) = lastVideoObject s
  /\ exists e,
       (generateVideo w params = Rejected e
        \/ generateSpeech w
             (textOrEmpty (GenerateVideoParams.dialogue params))
             (GenerateVideoParams.speaker params) = Rejected e)
       /\ fst (handleGenerate w params s) = Rules.afterFailure s params e.
Proof.
  intros Hguard Hspeech Hfails.
  unfold handleGenerate.
  destruct (credentialGuard w) as [proceed checked]. cbn in Hguard. subst.
  rewrite Hspeech. cbn [negb].
  set (text := textOrEmpty (GenerateVideoParams.dialogue params)) in *.
  set (who := GenerateVideoParams.speaker params) in *.
  assert (Hout :
    exists e,
      promiseAll (videoRejectsFirst w) (generateVideo w params)
        match generateSpeech w text who with
        | Fulfilled r => Fulfilled (Some r)
        | Rejected e => Rejected e
        end = Rejected e
      /\ (generateVideo w params = Rejected e
          \/ generateSpeech w text who = Rejected e)).
  { destruct (generateVideo w params) as [v|ev] eqn:Hv;
      destruct (generateSpeech w text who) as [r|es] eqn:Hr; cbn.
    - destruct Hfails as [[e He]|[e He]]; discriminate.
    - exists es. auto.
    - exists ev. auto.
    - destruct (videoRejectsFirst w); [exists ev | exists es]; auto. }
  destruct Hout as (e & -> & Hwhich).
  destruct (classifyError e) as [message flag] eqn:Hclass.
  split; [apply In_calls_video|].
  split; [apply in_or_app; right; right; now left|].
  destruct flag; cbn; do 5 (split; [reflexivity|]);
    exists e; (split; [exact Hwhich|]);
    unfold Rules.afterFailure; rewrite Hclass; reflexivity.
Qed.

End Attempt.

(** The video is generated, the speech service fails: the attempt ends in
    Error with the message of the speech failure, and the story stays
    empty with nothing retained. *)
Lemma all_or_nothing_witness :
  App.generateVideo Samples.speechFails (Samples.textConfig P720)
  = App.Fulfilled Samples.clip
  /\ App.timeline
       (fst (App.handleGenerate Samples.speechFails (Samples.textConfig P720)
               App.initial))
     = App.timeline App.initial
  /\ App.appState
       (fst (App.handleGenerate Samples.speechFails (Samples.textConfig P720)
               App.initial))
     = ERROR
  /\ App.lastVideoBlob
       (fst (App.handleGenerate Samples.speechFails (Samples.textConfig P720)
               App.initial))
     = App.lastVideoBlob App.initial.
Proof.
  split; [reflexivity|].
  destruct (all_or_nothing Samples.speechFails (Samples.textConfig P720)
              App.initial) as (_ & _ & Ht & _ & Hs & Hb & _).
  - reflexivity.
  - reflexivity.
  - right. exists (App.ErrorObject "TTS quota exceeded"). reflexivity.
  - split; [exact Ht|]. split; [exact Hs | exact Hb].
Defined.

Example speech_failure_message :
  App.errorMessage
    (fst (App.handleGenerate Samples.speechFails (Samples.textConfig P720)
            App.initial))
  = Some "Generation failed: TTS quota exceeded".
Proof. reflexivity. Qed.

(** ** Credential guard *)

Section Guard.
Import App.

(** C6, as the code has it.  Where the host provides [window.aistudio],
    the check is the one call made at start and the first call of every
    attempt.  An attempt whose check answers false or fails makes no
    other call, raises the key dialog and leaves state, last config, error
    message, timeline and everything else as they were.  Where the host
    provides no [window.aistudio], no check is made, neither at start nor
    before an attempt, and the attempt goes straight to the video call. *)
Theorem credential_guard
    (w : World) (params : GenerateVideoParams.t) (s : AppData) :
  (aistudio w <> None ->
   snd (start w) = [HasSelectedApiKey]
   /\ exists rest, snd (handleGenerate w params s) = HasSelectedApiKey :: rest)
  /\ (aistudio w = Some (Fulfilled false)
      \/ (exists e, aistudio w = Some (Rejected e)) ->
      snd (handleGenerate w params s) = [HasSelectedApiKey]
      /\ forallb (fun c => negb (isGenerationCall c))
           (snd (handleGenerate w params s)) = true
      /\ fst (handleGenerate w params s) = setShowApiKeyDialog true s
      /\ showApiKeyDialog (fst (handleGenerate w params s)) = true
      /\ appState (fst (handleGenerate w params s)) = appState s
      /\ lastConfig (fst (handleGenerate w params s)) = lastConfig s
      /\ errorMessage (fst (handleGenerate w params s)) = errorMessage s
      /\ timeline (fst (handleGenerate w params s)) = timeline s)
  /\ (aistudio w = None ->
      snd (start w) = []
      /\ exists rest,
           snd (handleGenerate w params s) = GenerateVideo params :: rest).
Proof.
  unfold start, checkApiKey, handleGenerate, credentialGuard.
  split; [|split].
  - intros Hhost.
    destruct (aistudio w) as [[[|]|e]|]; [| | |contradiction];
      cbn [negb fst snd]; (split; [reflexivity|]);
      try (eexists; reflexivity).
    destruct (promiseAll _ _ _) as [[v sp]|e];
      [|destruct (classifyError e)]; eexists; reflexivity.
  - intros [->|[e ->]]; cbn; repeat split; reflexivity.
  - intros ->. cbn [negb fst snd]. split; [reflexivity|].
    destruct (promiseAll _ _ _) as [[v sp]|e];
      [|destruct (classifyError e)]; eexists; reflexivity.
Qed.

End Guard.

(** With no key selected the submitted attempt stops at the check. *)
Lemma credential_guard_witness :
  snd (App.handleGenerate Samples.noKey (Samples.textConfig P720) App.initial)
  = [App.HasSelectedApiKey]
  /\ App.showApiKeyDialog
       (fst (App.handleGenerate Samples.noKey (Samples.textConfig P720)
               App.initial)) = true
  /\ App.appState
       (fst (App.handleGenerate Samples.noKey (Samples.textConfig P720)
               App.initial)) = App.appState App.initial.
Proof.
  destruct (credential_guard Samples.noKey (Samples.textConfig P720)
              App.initial) as (_ & Hblocked & _).
  destruct Hblocked as (Hcalls & _ & _ & Hdialog & Hstate & _).
  - left. reflexivity.
  - split; [exact Hcalls|]. split; [exact Hdialog | exact Hstate].
Defined.

(** The check is not made before every attempt: on a page without
    [window.aistudio] nothing is asked at start, and the attempt calls the
    two services at once and succeeds. *)
Lemma credential_check_skipped_without_host :
  ~ (forall (w : App.World) (params : GenerateVideoParams.t)
            (s : App.AppData),
       In App.HasSelectedApiKey (snd (App.start w))
       /\ exists rest,
            snd (App.handleGenerate w params s)
            = App.HasSelectedApiKey :: rest).
Proof.
  intros Hclaim.
  destruct (Hclaim Samples.noHost (Samples.textConfig P720) App.initial)
    as [Hstart _].
  exact Hstart.
Qed.

Example no_host_attempt :
  snd (App.handleGenerate Samples.noHost (Samples.textConfig P720) App.initial)
  = [App.GenerateVideo (Samples.textConfig P720);
     App.GenerateSpeech "We are not alone." ELENA]
  /\ App.appState
       (fst (App.handleGenerate Samples.noHost (Samples.textConfig P720)
               App.initial)) = SUCCESS.
Proof. split; reflexivity. Qed.

(** ** The current segment is the most recent one *)

Section CurrentSegment.
Import App.

Lemma mostRecent_snoc (l : list StorySegment.t) (x : StorySegment.t) :
  Rules.mostRecent (l ++ [x]) = Some x.
Proof.
  unfold Rules.mostRecent. rewrite length_app. cbn [List.length].
  replace (List.length l + 1 - 1) with (List.length l) by lia.
  rewrite nth_error_app2 by lia. now rewrite Nat.sub_diag.
Qed.

Lemma mostRecent_cons (a b : StorySegment.t) (l : list StorySegment.t) :
  Rules.mostRecent (a :: b :: l) = Rules.mostRecent (b :: l).
Proof.
  unfold Rules.mostRecent. cbn [List.length].
  now replace (S (S (List.length l)) - 1) with (S (S (List.length l) - 1))
    by lia.
Qed.

Lemma mostRecent_In (l : list StorySegment.t) (x : StorySegment.t) :
  Rules.mostRecent l = Some x -> In x l.
Proof. unfold Rules.mostRecent. apply nth_error_In. Qed.

Lemma handleGenerate_pointsToLast
    (w : World) (params : GenerateVideoParams.t) (s : AppData) :
  Rules.pointsToLast s -> Rules.pointsToLast (fst (handleGenerate w params s)).
Proof.
  unfold Rules.pointsToLast, handleGenerate. intros Hs.
  destruct (credentialGuard w) as [[|] checked]; cbn [negb fst];
    [|exact Hs].
  destruct (promiseAll _ _ _) as [[v sp]|e].
  - cbn -[Rules.mostRecent]. now rewrite mostRecent_snoc.
  - destruct (classifyError e) as [message [|]]; exact Hs.
Qed.

Lemma handleNewVideo_pointsToLast (s : AppData) :
  Rules.pointsToLast (handleNewVideo s).
Proof. reflexivity. Qed.

Lemma step_pointsToLast (s : AppData) (e : Event) :
  Rules.pointsToLast s -> Rules.pointsToLast (step s e).
Proof.
  intros Hs. destruct e; cbn [step].
  - now apply handleGenerate_pointsToLast.
  - unfold handleRetry. destruct (lastConfig s);
      [now apply handleGenerate_pointsToLast | exact Hs].
  - apply handleNewVideo_pointsToLast.
  - unfold handleAddScene. destruct (lastConfig s);
      [exact Hs | apply handleNewVideo_pointsToLast].
  - unfold handleTryAgainFromError. destruct (lastConfig s);
      [exact Hs | apply handleNewVideo_pointsToLast].
  - unfold handleExtend.
    destruct (lastConfig s), (lastVideoBlob s), (lastVideoObject s);
      try exact Hs.
    destruct thrown; exact Hs.
Qed.

Lemma run_pointsToLast (events : list Event) (s : AppData) :
  Rules.pointsToLast s -> Rules.pointsToLast (run s events).
Proof.
  revert s. induction events as [|e events IH]; intros s Hs; [exact Hs|].
  cbn. apply IH. now apply step_pointsToLast.
Qed.

(** With distinct ids, looking up the id of the last entry finds it. *)
Lemma find_mostRecent (l : list StorySegment.t) (x : StorySegment.t) :
  NoDup (map StorySegment.id l) ->
  Rules.mostRecent l = Some x ->
  find (fun seg => String.eqb (StorySegment.id seg) (StorySegment.id x)) l
  = Some x.
Proof.
  induction l as [|a l IH]; intros Hnodup Hlast; [discriminate|].
  destruct l as [|b l].
  - cbn in Hlast. inversion Hlast; subst. cbn. now rewrite String.eqb_refl.
  - rewrite mostRecent_cons in Hlast.
    inversion Hnodup as [|? ? Hnotin Hrest]; subst.
    cbn [find]. destruct (String.eqb_spec (StorySegment.id a) (StorySegment.id x))
      as [Heq|Hneq].
    + exfalso. apply Hnotin. rewrite Heq.
      change (In (StorySegment.id x) (map StorySegment.id (b :: l))).
      apply in_map. now apply mostRecent_In.
    + now apply IH.
Qed.

(** What [App] hands to the player is the most recent segment. *)
Lemma currentSegment_mostRecent (events : list Event) (cur : StorySegment.t) :
  NoDup (map StorySegment.id (timeline (run initial events))) ->
  currentSegment (run initial events) = Some cur ->
  Rules.mostRecent (timeline (run initial events)) = Some cur.
Proof.
  intros Hnodup Hcur.
  assert (Hp : Rules.pointsToLast (run initial events))
    by (apply run_pointsToLast; reflexivity).
  unfold Rules.pointsToLast in Hp. unfold currentSegment in Hcur.
  destruct (Rules.mostRecent (timeline (run initial events))) as [x|] eqn:Hx;
    rewrite Hp in Hcur; cbn in Hcur; [|discriminate].
  rewrite (find_mostRecent _ _ Hnodup Hx) in Hcur. exact Hcur.
Qed.

End CurrentSegment.

(** ** Story playback *)

Section Playback.
Import VideoResult.

Variable props : Props.
Variable s0 : PlaybackState.

Hypothesis enough : 2 <= List.length (timeline props).
Hypothesis stopped : isPlayingStory s0 = false.

Lemma play_offered : playStoryOffered props = true.
Proof. unfold playStoryOffered. apply Nat.ltb_lt. lia. Qed.

Lemma run_snoc (s : PlaybackState) (l : list Event) (e : Event) :
  run props s (l ++ [e]) = step props (run props s l) e.
Proof. unfold run. now rewrite fold_left_app. Qed.

Lemma storyEvents_succ (k : nat) :
  Rules.storyEvents (S k) = (Rules.storyEvents k ++ [VideoEnded])%list.
Proof.
  unfold Rules.storyEvents. cbn [repeat].
  now rewrite repeat_cons, app_comm_cons.
Qed.

(** While the story plays, the state after [k] signals is: playing, at
    index [k], viewing entry [k] of the timeline. *)
Lemma playing_at (k : nat) :
  k < List.length (timeline props) ->
  exists segment,
    nth_error (timeline props) k = Some segment
    /\ run props s0 (Rules.storyEvents k) = mkPlaybackState true k segment.
Proof.
  induction k as [|k IH]; intros Hk.
  - destruct (nth_error (timeline props) 0) as [segment|] eqn:Hfirst;
      [|apply nth_error_None in Hfirst; lia].
    exists segment. split; [reflexivity|].
    unfold Rules.storyEvents, run. cbn [repeat fold_left].
    unfold step. cbn [offered]. rewrite play_offered.
    cbn [handle]. unfold togglePlayStory. rewrite stopped.
    destruct s0 as [playing index viewing]. cbn in stopped. subst playing.
    cbn -[Nat.ltb nth_error]. unfold playbackEffect.
    cbn -[Nat.ltb nth_error].
    apply Nat.ltb_lt in Hk. now rewrite Hk, Hfirst.
  - destruct IH as (segment & _ & Hstate); [lia|].
    destruct (nth_error (timeline props) (S k)) as [next|] eqn:Hnext;
      [|apply nth_error_None in Hnext; lia].
    exists next. split; [reflexivity|].
    rewrite storyEvents_succ, run_snoc, Hstate.
    unfold step. cbn [offered handle]. unfold handleVideoEnded.
    cbn -[Nat.ltb nth_error Nat.sub Nat.eqb].
    assert (Hlt : (k <? List.length (timeline props) - 1) = true)
      by (apply Nat.ltb_lt; lia).
    rewrite Hlt. cbn -[Nat.ltb nth_error Nat.sub Nat.eqb].
    assert (Hmoved : (k + 1 =? k) = false) by (apply Nat.eqb_neq; lia).
    rewrite Hmoved. cbn -[Nat.ltb nth_error Nat.sub].
    unfold playbackEffect. cbn -[Nat.ltb nth_error Nat.sub].
    replace (k + 1) with (S k) by lia.
    apply Nat.ltb_lt in Hk. now rewrite Hk, Hnext.
Qed.

(** The signal at the last index stops the story on the current segment. *)
Lemma playing_ends :
  run props s0 (Rules.storyEvents (List.length (timeline props)))
  = mkPlaybackState false 0 (currentSegment props).
Proof.
  assert (Hlen : exists last, List.length (timeline props) = S last)
    by (exists (List.length (timeline props) - 1); lia).
  destruct Hlen as [last Hlen].
  destruct (playing_at last) as (segment & _ & Hstate); [lia|].
  rewrite Hlen, storyEvents_succ, run_snoc, Hstate.
  unfold step. cbn [offered handle]. unfold handleVideoEnded.
  cbn -[Nat.ltb Nat.sub Nat.eqb]. rewrite Hlen.
  assert (Hlt : (last <? S last - 1) = false) by (apply Nat.ltb_ge; lia).
  rewrite Hlt. reflexivity.
Qed.

End Playback.

(** C7. Take the player as [App] renders it after any run of its
    operations that left a story of two scenes or more with distinct ids,
    and let it be idle.  The play button is then offered.  After the click
    and [k] "scene ended" signals, for every [k] below the number of
    scenes, the story is playing at index [k] and the scene viewed is
    entry [k] of the timeline: the click starts at 0 and each signal
    moves one further.  After as many signals as there are scenes the
    story has stopped, and the scene viewed is the current segment, which
    is the last entry of the timeline, not the first. *)
Theorem story_playback
    (events : list App.Event) (cur : StorySegment.t)
    (s0 : VideoResult.PlaybackState) (props : VideoResult.Props) :
  props = VideoResult.mkProps cur (App.timeline (App.run App.initial events)) ->
  App.currentSegment (App.run App.initial events) = Some cur ->
  NoDup (map StorySegment.id (App.timeline (App.run App.initial events))) ->
  2 <= List.length (VideoResult.timeline props) ->
  VideoResult.isPlayingStory s0 = false ->
  VideoResult.playStoryOffered props = true
  /\ (forall k,
        k < List.length (VideoResult.timeline props) ->
        VideoResult.isPlayingStory
          (VideoResult.run props s0 (Rules.storyEvents k)) = true
        /\ VideoResult.storyIndex
             (VideoResult.run props s0 (Rules.storyEvents k)) = k
        /\ nth_error (VideoResult.timeline props) k
           = Some (VideoResult.viewingSegment
                     (VideoResult.run props s0 (Rules.storyEvents k))))
  /\ VideoResult.isPlayingStory
       (VideoResult.run props s0
          (Rules.storyEvents (List.length (VideoResult.timeline props))))
     = false
  /\ VideoResult.viewingSegment
       (VideoResult.run props s0
          (Rules.storyEvents (List.length (VideoResult.timeline props))))
     = cur
  /\ Rules.mostRecent (VideoResult.timeline props) = Some cur.
Proof.
  intros Hprops Hcur Hnodup Henough Hstopped.
  split; [now apply play_offered|]. split; [|split; [|split]].
  - intros k Hk.
    destruct (playing_at props s0 Henough Hstopped k Hk)
      as (segment & Hnth & ->).
    cbn. now rewrite Hnth.
  - now rewrite playing_ends.
  - rewrite playing_ends by assumption. now rewrite Hprops.
  - rewrite Hprops. cbn [VideoResult.timeline].
    now apply currentSegment_mostRecent.
Qed.

(** Three scenes: after the click and two signals the story is at index 2;
    after the third signal it has stopped on the scene generated last. *)
Lemma story_playback_witness :
  VideoResult.storyIndex
    (VideoResult.run Samples.player (VideoResult.mount Samples.player)
       (Rules.storyEvents 2)) = 2
  /\ VideoResult.isPlayingStory
       (VideoResult.run Samples.player (VideoResult.mount Samples.player)
          (Rules.storyEvents
             (List.length (VideoResult.timeline Samples.player)))) = false
  /\ VideoResult.viewingSegment
       (VideoResult.run Samples.player (VideoResult.mount Samples.player)
          (Rules.storyEvents
             (List.length (VideoResult.timeline Samples.player))))
     = Samples.lastScene.
Proof.
  assert (Hlen : List.length (VideoResult.timeline Samples.player) = 3)
    by (vm_compute; reflexivity).
  destruct (story_playback Samples.threeAttempts Samples.lastScene
              (VideoResult.mount Samples.player) Samples.player)
    as (_ & Hplay & Hstop & Hview & _).
  - reflexivity.
  - vm_compute. reflexivity.
  - vm_compute. repeat constructor; cbn; intuition discriminate.
  - rewrite Hlen. lia.
  - reflexivity.
  - split; [|split; [exact Hstop | exact Hview]].
    apply Hplay. rewrite Hlen. lia.
Defined.

(** The order in which a story of three scenes is viewed: entries 0, 1
    and 2 while playing, then the most recent one with playback off. *)
Example three_scene_order :
  map (fun k =>
         let s := VideoResult.run Samples.player
                    (VideoResult.mount Samples.player)
                    (Rules.storyEvents k) in
         (VideoResult.isPlayingStory s,
          StorySegment.id (VideoResult.viewingSegment s)))
    [0; 1; 2; 3]
  = [(true, "1700000000001"); (true, "1700000000002");
     (true, "1700000000003"); (false, "1700000000003")].
Proof. vm_compute. reflexivity. Qed.

(** Without a second scene the play button is not there. *)
Example play_needs_two_scenes :
  VideoResult.playStoryOffered
    (VideoResult.mkProps Samples.lastScene [Samples.lastScene]) = false.
Proof. reflexivity. Qed.

(** * Further properties of the code *)

(** ** One attempt that succeeds, and what a session keeps *)

Section Sessions.
Import App.

Lemma classifyError_message (e : Thrown) :
  JsString.isEmpty (fst (classifyError e)) = false.
Proof.
  unfold classifyError.
  destruct (JsString.includes _ _); [reflexivity|].
  destruct (_ || _); reflexivity.
Qed.


End Sessions.


(** ** What holds between any two events of a session *)

Section Consistency.
Import App.

Lemma consistent_initial : Session.consistent initial.
Proof.
  unfold Session.consistent, Rules.pointsToLast. cbn.
  repeat split; try discriminate; try reflexivity; try congruence.
Qed.

Lemma consistent_start (w : World) : Session.consistent (fst (start w)).
Proof.
  unfold start, checkApiKey.
  destruct (aistudio w) as [[[|]|e]|]; apply consistent_initial.
Qed.

Lemma snoc_not_nil {A : Type} (l : list A) (x : A) : (l ++ [x])%list <> [].
Proof. destruct l; discriminate. Qed.

Lemma handleGenerate_consistent
    (w : World) (params : GenerateVideoParams.t) (s : AppData) :
  Session.consistent s -> Session.consistent (fst (handleGenerate w params s)).
Proof.
  intros Hs.
  pose proof (handleGenerate_pointsToLast w params s (proj1 Hs)) as Hpoint.
  destruct Hs as (_ & Hconfig & Hblob & Hobject & Hsuccess & Herror & Htext).
  split; [exact Hpoint|]. clear Hpoint.
  unfold handleGenerate.
  destruct (credentialGuard w) as [[|] checked]; cbn [negb fst];
    [|cbn; tauto].
  destruct (promiseAll _ _ _) as [[v sp]|e].
  - cbn. pose proof (snoc_not_nil (timeline s)) as Hsnoc.
    repeat split; try discriminate; try congruence; intros H;
      try (now apply Hsnoc in H).
  - pose proof (classifyError_message e) as Hmessage.
    destruct (classifyError e) as [message [|]]; cbn in *;
      (split; [discriminate|]); (split; [exact Hblob|]);
      (split; [exact Hobject|]); (split; [discriminate|]);
      (split; [split; [discriminate | reflexivity]|]);
      intros m Hm; inversion Hm; subst; exact Hmessage.
Qed.

Lemma handleNewVideo_consistent (s : AppData) :
  Session.consistent (handleNewVideo s).
Proof.
  unfold Session.consistent, Rules.pointsToLast. cbn.
  repeat split; try discriminate; try reflexivity; try congruence.
Qed.

(** Going back to the form keeps everything but state, message and draft. *)
Lemma backToForm_consistent
    (draft : option GenerateVideoParams.t) (s : AppData) :
  Session.consistent s ->
  Session.consistent
    (setErrorMessage None (setAppState IDLE (setInitialFormValues draft s))).
Proof.
  intros (Hpoint & Hconfig & Hblob & Hobject & _ & _ & _).
  unfold Session.consistent, Rules.pointsToLast in *. cbn.
  repeat split; try assumption; try discriminate; try tauto;
    try congruence.
Qed.

(** A local failure keeps everything but state and message. *)
Lemma showStatusError_consistent (message : string) (s : AppData) :
  Session.consistent s ->
  Session.consistent
    (showStatusError ("Failed to prepare video for extension: " ++ message) s).
Proof.
  intros (Hpoint & Hconfig & Hblob & Hobject & _ & _ & _).
  unfold Session.consistent, Rules.pointsToLast in *. cbn.
  repeat split; try assumption; try discriminate; try tauto;
    try congruence.
  intros m Hm. inversion Hm. reflexivity.
Qed.

Lemma step_consistent (s : AppData) (e : Event) :
  Session.consistent s -> Session.consistent (step s e).
Proof.
  intros Hs. destruct e; cbn [step].
  - now apply handleGenerate_consistent.
  - unfold handleRetry. destruct (lastConfig s);
      [now apply handleGenerate_consistent | exact Hs].
  - apply handleNewVideo_consistent.
  - unfold handleAddScene. destruct (lastConfig s);
      [now apply backToForm_consistent | apply handleNewVideo_consistent].
  - unfold handleTryAgainFromError. destruct (lastConfig s);
      [now apply backToForm_consistent | apply handleNewVideo_consistent].
  - unfold handleExtend.
    destruct (lastConfig s), (lastVideoBlob s), (lastVideoObject s);
      try exact Hs.
    destruct thrown as [error|];
      [now apply showStatusError_consistent
      | now apply backToForm_consistent].
Qed.

Lemma dialogContinue_consistent
    (w : World) (selector : Settled unit) (s : AppData) :
  Session.consistent s ->
  Session.consistent (fst (Session.handleApiKeyDialogContinue w selector s)).
Proof.
  intros Hs. unfold Session.handleApiKeyDialogContinue.
  assert (Hretry : Session.consistent
                     (fst (handleRetry w (setShowApiKeyDialog false s)))).
  { unfold handleRetry. cbn [lastConfig setShowApiKeyDialog].
    destruct (lastConfig s);
      [now apply handleGenerate_consistent | exact Hs]. }
  destruct (aistudio w), selector; cbn [fst]; try exact Hs;
    destruct (AppState_eqb (appState s) ERROR && present (lastConfig s));
    cbn [fst]; assumption.
Qed.

Lemma session_step_consistent (s : AppData) (e : Session.Event) :
  Session.consistent s -> Session.consistent (Session.step s e).
Proof.
  intros Hs. destruct e; cbn [Session.step].
  - now apply step_consistent.
  - now apply dialogContinue_consistent.
Qed.

Lemma session_run_consistent (events : list Session.Event) (s : AppData) :
  Session.consistent s -> Session.consistent (Session.run s events).
Proof.
  revert s. induction events as [|e events IH]; intros s Hs; [exact Hs|].
  cbn. apply IH. now apply session_step_consistent.
Qed.

Lemma session_consistent (w : World) (events : list Session.Event) :
  Session.consistent (Session.session w events).
Proof. apply session_run_consistent, consistent_start. Qed.

Lemma find_present {A : Type} (f : A -> bool) (l : list A) (x : A) :
  In x l -> f x = true -> exists y, find f l = Some y /\ f y = true /\ In y l.
Proof.
  induction l as [|a l IH]; intros Hin Hx; [contradiction|].
  cbn [find]. destruct (f a) eqn:Ha.
  - exists a. split; [reflexivity|]. split; [exact Ha | now left].
  - destruct Hin as [->|Hin]; [congruence|].
    destruct (IH Hin Hx) as (y & Hy & Hfy & Hiny).
    exists y. split; [exact Hy|]. split; [exact Hfy | now right].
Qed.

(** In a consistent Success state the pointer finds a segment of the
    timeline that has the id of the last entry. *)
Lemma consistent_success_segment (s : AppData) :
  Session.consistent s ->
  appState s = SUCCESS ->
  exists segment latest,
    currentSegment s = Some segment
    /\ In segment (timeline s)
    /\ Rules.mostRecent (timeline s) = Some latest
    /\ StorySegment.id segment = StorySegment.id latest.
Proof.
  intros (Hpoint & _ & _ & _ & Hsuccess & _) Hstate.
  specialize (Hsuccess Hstate).
  unfold Rules.pointsToLast in Hpoint. unfold currentSegment.
  destruct (Rules.mostRecent (timeline s)) as [latest|] eqn:Hlatest.
  - rewrite Hpoint. cbn [option_map].
    destruct (find_present
                (fun seg => String.eqb (StorySegment.id seg)
                              (StorySegment.id latest))
                (timeline s) latest)
      as (segment & Hfind & Hid & Hin).
    + now apply mostRecent_In.
    + apply String.eqb_refl.
    + exists segment, latest. split; [exact Hfind|]. split; [exact Hin|].
      split; [reflexivity|]. now apply String.eqb_eq.
  - exfalso. unfold Rules.mostRecent in Hlatest.
    apply nth_error_None in Hlatest.
    destruct (timeline s); [now apply Hsuccess|].
    cbn in Hlatest. lia.
Qed.

End Consistency.

(** ** The timeline only grows *)

Section AppendOnly.
Import App.






End AppendOnly.


(** ** Retry, the key dialog and "new story" *)

Section Recovery.
Import App.



(** X6. "Continue" in the key dialog closes the dialog and, with a host,
    opens the key selector.  Outside the Error state it does nothing
    else: a submit that the guard stopped is not sent again.  In the
    Error state with a recorded config and a selector that returns, it
    retries that config; if the key check then still answers false or
    fails, the only call after the selector is the check, the dialog is
    up again and the state is otherwise as it was. *)
Theorem dialog_continue
    (w : World) (selector : Settled unit) (s : AppData) :
  (appState s <> ERROR ->
   fst (Session.handleApiKeyDialogContinue w selector s)
   = setShowApiKeyDialog false s
   /\ forallb (fun c => match c with
                        | Session.OpenSelectKey => true
                        | Session.Attempt _ => false
                        end)
        (snd (Session.handleApiKeyDialogContinue w selector s)) = true)
  /\ (forall config,
        appState s = ERROR -> lastConfig s = Some config ->
        (aistudio w = None \/ exists u, selector = Fulfilled u) ->
        fst (Session.handleApiKeyDialogContinue w selector s)
        = fst (handleGenerate w config (setShowApiKeyDialog false s)))
  /\ (forall config,
        appState s = ERROR -> lastConfig s = Some config ->
        fst (credentialGuard w) = false ->
        (exists u, selector = Fulfilled u) ->
        fst (Session.handleApiKeyDialogContinue w selector s)
        = setShowApiKeyDialog true s
        /\ snd (Session.handleApiKeyDialogContinue w selector s)
           = [Session.OpenSelectKey; Session.Attempt HasSelectedApiKey]).
Proof.
  unfold Session.handleApiKeyDialogContinue. split; [|split].
  - intros Hstate.
    assert (Hno : AppState_eqb (appState s) ERROR = false)
      by (destruct (appState s); try reflexivity; now contradiction Hstate).
    rewrite Hno. cbn [andb].
    destruct (aistudio w), selector; split; reflexivity.
  - intros config Hstate Hconfig Hopen.
    rewrite Hstate, Hconfig. cbn [AppState_eqb present andb].
    unfold handleRetry. cbn [lastConfig setShowApiKeyDialog].
    rewrite Hconfig.
    destruct (aistudio w) as [host|] eqn:Hhost, selector as [u|reason];
      try reflexivity.
    destruct Hopen as [Hopen|[u Hopen]]; discriminate.
  - intros config Hstate Hconfig Hguard [u ->].
    rewrite Hstate, Hconfig. cbn [AppState_eqb present andb].
    unfold handleRetry. cbn [lastConfig setShowApiKeyDialog].
    rewrite Hconfig. unfold handleGenerate.
    unfold credentialGuard in *.
    destruct (aistudio w) as [[[|]|e]|]; cbn in Hguard; try discriminate;
      split; reflexivity.
Qed.

(** X7. "New story" is a full reset: what it leaves is the initial
    state, except that the key dialog stays as it is.  From there the
    story cannot be extended, there is no current segment, Retry and
    Extend do nothing, and Add scene and Try again stay in that state. *)
Theorem new_story_resets
    (w : World) (thrown : option Thrown) (s : AppData) :
  handleNewVideo s = setShowApiKeyDialog (showApiKeyDialog s) initial
  /\ canExtend (handleNewVideo s) = false
  /\ currentSegment (handleNewVideo s) = None
  /\ handleRetry w (handleNewVideo s) = (handleNewVideo s, [])
  /\ handleExtend thrown (handleNewVideo s) = handleNewVideo s
  /\ handleAddScene (handleNewVideo s) = handleNewVideo s
  /\ handleTryAgainFromError (handleNewVideo s) = handleNewVideo s.
Proof. repeat split. Qed.

End Recovery.


(** After a blocked submit "Continue" only closes the dialog; after a
    key error with still no key selected the dialog comes back. *)
Lemma dialog_continue_witness :
  fst (Session.handleApiKeyDialogContinue Samples.noKey (App.Fulfilled tt)
         MoreSamples.blocked)
  = App.setShowApiKeyDialog false MoreSamples.blocked
  /\ fst (Session.handleApiKeyDialogContinue Samples.noKey
            (App.Fulfilled tt) MoreSamples.keyError)
     = App.setShowApiKeyDialog true MoreSamples.keyError.
Proof.
  destruct (dialog_continue Samples.noKey (App.Fulfilled tt)
              MoreSamples.blocked) as (Hidle & _).
  destruct (dialog_continue Samples.noKey (App.Fulfilled tt)
              MoreSamples.keyError) as (_ & _ & Herror).
  split.
  - apply Hidle. vm_compute. discriminate.
  - apply (Herror (Samples.textConfig P720)).
    + vm_compute. reflexivity.
    + vm_compute. reflexivity.
    + reflexivity.
    + exists tt. reflexivity.
Defined.

(** ** From the result screen back to the form *)

Section Drafts.
Import PromptForm.

Lemma modeRulesEffect_gate (s : FormState) :
  submitGate (modeRulesEffect s) = submitGate s.
Proof.
  unfold modeRulesEffect, submitGate.
  destruct (generationMode s) eqn:Hmode; cbn; rewrite ?Hmode; cbn;
    rewrite ?Hmode; reflexivity.
Qed.

(** X8. The form that "add next scene" opens cannot be submitted as it
    is: prompt and dialogue are empty, there is no frame and no input
    video, looping is off, and the mode is never extend mode, so each of
    the three remaining modes misses a required field.  With a last
    config, the reference images, the style image and the speaker are
    taken over from it, the dialogue panel is open exactly when that
    speaker is not NONE, and the timeline is kept. *)
Theorem add_scene_form (s : App.AppData) :
  isSubmitDisabled (mount (App.initialFormValues (App.handleAddScene s)))
  = true
  /\ generationMode (mount (App.initialFormValues (App.handleAddScene s)))
     <> EXTEND_VIDEO
  /\ prompt (mount (App.initialFormValues (App.handleAddScene s))) = ""
  /\ dialogue (mount (App.initialFormValues (App.handleAddScene s))) = ""
  /\ startFrame (mount (App.initialFormValues (App.handleAddScene s))) = None
  /\ endFrame (mount (App.initialFormValues (App.handleAddScene s))) = None
  /\ inputVideo (mount (App.initialFormValues (App.handleAddScene s))) = None
  /\ inputVideoObject (mount (App.initialFormValues (App.handleAddScene s)))
     = None
  /\ isLooping (mount (App.initialFormValues (App.handleAddScene s))) = false
  /\ (forall config,
        App.lastConfig s = Some config ->
        referenceImages (mount (App.initialFormValues (App.handleAddScene s)))
        = GenerateVideoParams.referenceImages config
        /\ styleImage (mount (App.initialFormValues (App.handleAddScene s)))
           = GenerateVideoParams.styleImage config
        /\ speaker (mount (App.initialFormValues (App.handleAddScene s)))
           = GenerateVideoParams.speaker config
        /\ showDialogueInput
             (mount (App.initialFormValues (App.handleAddScene s)))
           = negb (Speaker_eqb (GenerateVideoParams.speaker config) NONE)
        /\ App.timeline (App.handleAddScene s) = App.timeline s
        /\ App.appState (App.handleAddScene s) = IDLE).
Proof.
  unfold App.handleAddScene, isSubmitDisabled, mount.
  destruct (App.lastConfig s) as [last|].
  - cbn [App.initialFormValues App.setErrorMessage App.setAppState
         App.setInitialFormValues].
    rewrite modeRulesEffect_gate.
    destruct last as [p m a r mode sf ef refs style iv ivo loop d sp].
    cbn [GenerateVideoParams.mode GenerateVideoParams.model
         GenerateVideoParams.referenceImages GenerateVideoParams.styleImage
         GenerateVideoParams.speaker GenerateVideoParams.aspectRatio
         GenerateVideoParams.resolution].
    destruct mode, sp; cbn;
      do 9 (split; [first [reflexivity | discriminate]|]);
      intros config Hconfig; inversion Hconfig; subst; cbn;
      repeat split.
  - cbn. do 9 (split; [first [reflexivity | discriminate]|]).
    intros config Hconfig. discriminate.
Qed.

(** X9. Extend, when there is a last config, a retained blob and a
    retained video object and the blob can be wrapped as a file, opens a
    form that can be submitted at once: extend mode, 720p whatever the
    resolution of the last config, the retained video object attached,
    model and aspect ratio taken over, the dialogue panel closed and no
    speech wanted; the state is Idle and the timeline is kept.  If the
    wrapping throws, no form is opened: the state is Error with the
    message "Failed to prepare video for extension: " followed by the
    text of what was thrown, and timeline, last config, retained
    artifact and draft are as before.  If any of the three is missing,
    Extend changes nothing. *)
Theorem extend_form (s : App.AppData) :
  (forall config retained object,
     App.lastConfig s = Some config ->
     App.lastVideoBlob s = Some retained ->
     App.lastVideoObject s = Some object ->
     App.appState (App.handleExtend None s) = IDLE
     /\ App.timeline (App.handleExtend None s) = App.timeline s
     /\ generationMode
          (mount (App.initialFormValues (App.handleExtend None s)))
        = EXTEND_VIDEO
     /\ resolution (mount (App.initialFormValues (App.handleExtend None s)))
        = P720
     /\ inputVideoObject
          (mount (App.initialFormValues (App.handleExtend None s)))
        = Some object
     /\ model (mount (App.initialFormValues (App.handleExtend None s)))
        = GenerateVideoParams.model config
     /\ aspectRatio
          (mount (App.initialFormValues (App.handleExtend None s)))
        = GenerateVideoParams.aspectRatio config
     /\ isSubmitDisabled
          (mount (App.initialFormValues (App.handleExtend None s))) = false
     /\ App.wantsSpeech
          (handleSubmit
             (mount (App.initialFormValues (App.handleExtend None s))))
        = false)
  /\ (forall config retained object error,
        App.lastConfig s = Some config ->
        App.lastVideoBlob s = Some retained ->
        App.lastVideoObject s = Some object ->
        App.appState (App.handleExtend (Some error) s) = ERROR
        /\ App.errorMessage (App.handleExtend (Some error) s)
           = Some ("Failed to prepare video for extension: "
                   ++ App.rawMessage error)
        /\ App.timeline (App.handleExtend (Some error) s) = App.timeline s
        /\ App.currentSegmentId (App.handleExtend (Some error) s)
           = App.currentSegmentId s
        /\ App.lastConfig (App.handleExtend (Some error) s) = Some config
        /\ App.lastVideoBlob (App.handleExtend (Some error) s)
           = Some retained
        /\ App.lastVideoObject (App.handleExtend (Some error) s)
           = Some object
        /\ App.initialFormValues (App.handleExtend (Some error) s)
           = App.initialFormValues s
        /\ App.showApiKeyDialog (App.handleExtend (Some error) s)
           = App.showApiKeyDialog s)
  /\ (forall thrown,
        App.lastConfig s = None \/ App.lastVideoBlob s = None
        \/ App.lastVideoObject s = None ->
        App.handleExtend thrown s = s).
Proof.
  unfold App.handleExtend. split; [|split].
  - intros config retained object -> -> ->. cbn. repeat split.
  - intros config retained object error Hconfig Hblob Hobject.
    rewrite Hconfig, Hblob, Hobject. cbn.
    repeat split; assumption.
  - intros thrown [->|[->| ->]]; [reflexivity| |].
    + now destruct (App.lastConfig s).
    + now destruct (App.lastConfig s), (App.lastVideoBlob s).
Qed.

End Drafts.

(** After a references scene with Arun speaking, the next-scene form
    keeps the portrait and the speaker and opens the dialogue panel. *)
Lemma add_scene_form_witness :
  PromptForm.referenceImages
    (PromptForm.mount
       (App.initialFormValues
          (App.handleAddScene
             (fst (App.handleGenerate (Samples.allGood "1700000000001")
                     MoreSamples.referenceScene App.initial)))))
  = GenerateVideoParams.referenceImages MoreSamples.referenceScene
  /\ PromptForm.showDialogueInput
       (PromptForm.mount
          (App.initialFormValues
             (App.handleAddScene
                (fst (App.handleGenerate (Samples.allGood "1700000000001")
                        MoreSamples.referenceScene App.initial)))))
     = negb (Speaker_eqb
               (GenerateVideoParams.speaker MoreSamples.referenceScene) NONE).
Proof.
  destruct (add_scene_form
              (fst (App.handleGenerate (Samples.allGood "1700000000001")
                      MoreSamples.referenceScene App.initial)))
    as (_ & _ & _ & _ & _ & _ & _ & _ & _ & Hkept).
  destruct (Hkept MoreSamples.referenceScene) as (Hrefs & _ & _ & Hshow & _).
  - vm_compute. reflexivity.
  - split; [exact Hrefs | exact Hshow].
Defined.

(** Extend after a 720p scene: the form is in extend mode and can be
    submitted; if the blob cannot be wrapped, the Error screen says so. *)
Lemma extend_form_witness :
  PromptForm.generationMode
    (PromptForm.mount
       (App.initialFormValues (App.handleExtend None MoreSamples.after720)))
  = EXTEND_VIDEO
  /\ PromptForm.isSubmitDisabled
       (PromptForm.mount
          (App.initialFormValues
             (App.handleExtend None MoreSamples.after720))) = false
  /\ App.errorMessage
       (App.handleExtend (Some (App.ErrorObject "out of memory"))
          MoreSamples.after720)
     = Some ("Failed to prepare video for extension: "
             ++ App.rawMessage (App.ErrorObject "out of memory")).
Proof.
  destruct (extend_form MoreSamples.after720) as (Hdraft & Hthrown & _).
  destruct (Hdraft (Samples.textConfig P720) "mp4-bytes" "files/video-1")
    as (_ & _ & Hmode & _ & _ & _ & _ & Hgate & _);
    [vm_compute; reflexivity ..|].
  destruct (Hthrown (Samples.textConfig P720) "mp4-bytes" "files/video-1"
              (App.ErrorObject "out of memory"))
    as (_ & Hmessage & _); [vm_compute; reflexivity ..|].
  split; [exact Hmode|]. split; [exact Hgate | exact Hmessage].
Defined.

(** ** Going back to the form with a config and sending it again *)

Section Resubmit.
Import PromptForm.

Lemma loaded_form (p : GenerateVideoParams.t) :
  initialValuesEffect (Some p) (initialState (Some p)) = FormFacts.loaded p.
Proof.
  unfold initialValuesEffect, FormFacts.loaded.
  fold (FormFacts.panelOpenFor p).
  destruct p as [text m a r mode sf ef refs style iv ivo loop d sp].
  destruct (FormFacts.panelOpenFor _); vm_compute; reflexivity.
Qed.

Lemma handleSubmit_modeRulesEffect (s : FormState) :
  handleSubmit (modeRulesEffect s) = FormFacts.forceConfig (handleSubmit s).
Proof.
  destruct s as [text m a r mode sf ef refs style iv ivo loop d sp
                   shown settings menu].
  destruct mode; vm_compute; reflexivity.
Qed.

(** The round trip, written out: the dialogue is kept only if the panel
    opens for it, and the overrides of the mode are applied. *)
Lemma resubmit_unfolded (p : GenerateVideoParams.t) :
  FormFacts.resubmit p
  = FormFacts.forceConfig
      (GenerateVideoParams.mk
         (GenerateVideoParams.prompt p) (GenerateVideoParams.model p)
         (GenerateVideoParams.aspectRatio p)
         (GenerateVideoParams.resolution p) (GenerateVideoParams.mode p)
         (GenerateVideoParams.startFrame p) (GenerateVideoParams.endFrame p)
         (GenerateVideoParams.referenceImages p)
         (GenerateVideoParams.styleImage p)
         (GenerateVideoParams.inputVideo p)
         (GenerateVideoParams.inputVideoObject p)
         (GenerateVideoParams.isLooping p)
         (if FormFacts.panelOpenFor p
          then Some (textOrEmpty (GenerateVideoParams.dialogue p))
          else None)
         (if FormFacts.panelOpenFor p
          then GenerateVideoParams.speaker p
          else NONE)).
Proof.
  unfold FormFacts.resubmit, mount.
  now rewrite loaded_form, handleSubmit_modeRulesEffect.
Qed.

(** X10. "Try again" hands the last config back to the form.  Sent again
    untouched, it is the same request: every field is as before, provided
    the config respects the forced overrides of its mode, except that an
    absent dialogue may be written differently (an empty dialogue with
    speaker NONE comes back as no dialogue, no dialogue with a speaker as
    the empty one).  Whether speech is wanted never changes, a second
    round trip changes nothing more, and the submit button is enabled
    after the round trip exactly if it was before. *)
Theorem resubmit_keeps_request (p : GenerateVideoParams.t) :
  (Rules.configForced p -> FormFacts.sameRequest p (FormFacts.resubmit p))
  /\ App.wantsSpeech (FormFacts.resubmit p) = App.wantsSpeech p
  /\ FormFacts.resubmit (FormFacts.resubmit p) = FormFacts.resubmit p
  /\ GenerateVideoParams.dialogue (FormFacts.resubmit p)
     = (if truthyText (GenerateVideoParams.dialogue p)
           || negb (Speaker_eqb (GenerateVideoParams.speaker p) NONE)
        then Some (textOrEmpty (GenerateVideoParams.dialogue p))
        else None)
  /\ (forall s,
        isSubmitDisabled (mount (Some (handleSubmit s)))
        = isSubmitDisabled s).
Proof.
  rewrite resubmit_unfolded.
  destruct p as [text m a r mode sf ef refs style iv ivo loop d sp].
  unfold FormFacts.panelOpenFor.
  cbn [GenerateVideoParams.dialogue GenerateVideoParams.speaker].
  split; [|split; [|split; [|split]]].
  - unfold Rules.configForced, Rules.forcedOverrides, FormFacts.sameRequest.
    cbn [GenerateVideoParams.mode GenerateVideoParams.model
         GenerateVideoParams.aspectRatio GenerateVideoParams.resolution].
    intros [Href Hext].
    destruct mode;
      [| |destruct (Href eq_refl) as (-> & -> & ->) |rewrite (Hext eq_refl)];
      destruct d as [[|c d]|], sp; repeat split.
  - destruct d as [[|c d]|], sp; reflexivity.
  - rewrite resubmit_unfolded. unfold FormFacts.panelOpenFor.
    destruct mode, d as [[|c d]|], sp; reflexivity.
  - destruct d as [[|c d]|], sp; reflexivity.
  - intros s. unfold isSubmitDisabled, mount.
    rewrite modeRulesEffect_gate, loaded_form.
    unfold submitGate. cbn [FormFacts.loaded generationMode prompt
      startFrame referenceImages inputVideoObject].
    reflexivity.
Qed.

End Resubmit.

(** A config sent with the panel open and left empty comes back with no
    dialogue; everything else is as it was. *)
Lemma resubmit_keeps_request_witness :
  FormFacts.sameRequest MoreSamples.emptyDialogue
    (FormFacts.resubmit MoreSamples.emptyDialogue)
  /\ GenerateVideoParams.dialogue MoreSamples.emptyDialogue = Some ""
  /\ GenerateVideoParams.dialogue
       (FormFacts.resubmit MoreSamples.emptyDialogue) = None.
Proof.
  split; [|split; [reflexivity | vm_compute; reflexivity]].
  apply (proj1 (resubmit_keeps_request MoreSamples.emptyDialogue)).
  split; discriminate.
Defined.

(** ** Looping *)

Section Looping.
Import PromptForm.

Lemma modeRulesEffect_looping (s : FormState) :
  FormFacts.loopingSound s -> FormFacts.loopingSound (modeRulesEffect s).
Proof.
  unfold FormFacts.loopingSound, modeRulesEffect.
  destruct (generationMode s) eqn:Hmode; cbn; rewrite ?Hmode; cbn;
    rewrite ?Hmode; auto.
Qed.

Lemma mount_looping (initialValues : option GenerateVideoParams.t) :
  FormFacts.draftLoopingSound initialValues ->
  FormFacts.loopingSound (mount initialValues).
Proof.
  intros Hdraft. apply modeRulesEffect_looping.
  unfold FormFacts.loopingSound.
  destruct initialValues as [p|]; [|discriminate].
  cbn in Hdraft. unfold initialValuesEffect.
  destruct (truthyText _ || _); cbn; exact Hdraft.
Qed.

Lemma step_looping (s : FormState) (e : Event) :
  FormFacts.loopingSound s -> FormFacts.loopingSound (step s e).
Proof.
  intros Hs. unfold step.
  destruct (offered e s) eqn:Hoffered; [|exact Hs].
  assert (Hhandled : FormFacts.loopingSound (handle e s)).
  { unfold FormFacts.loopingSound in *.
    destruct e; cbn in *; try exact Hs; try discriminate.
    - intros Hloop. destruct (Hs Hloop) as [_ Hmode]. now split.
    - intros _.
      rewrite !andb_true_iff in Hoffered.
      destruct Hoffered as [[Hmode Hstart] _].
      split; [exact Hstart | now apply GenerationMode_eqb_eq]. }
  destruct (GenerationMode_eqb _ _); [exact Hhandled|].
  now apply modeRulesEffect_looping.
Qed.

(** X11. A looping request always has a start frame and is made in
    frames mode.  This holds in every state a form reaches by any events
    from a mounting whose initial values, if any, respect it, and so for
    the config a submission hands over: the loop checkbox needs a start
    frame, removing the start frame switches looping off, and so does
    every change of mode. *)
Theorem looping_needs_start_frame
    (initialValues : option GenerateVideoParams.t) (events : list Event) :
  FormFacts.draftLoopingSound initialValues ->
  FormFacts.loopingSound (run (mount initialValues) events)
  /\ FormFacts.draftLoopingSound
       (Some (handleSubmit (run (mount initialValues) events))).
Proof.
  intros Hdraft.
  assert (H : FormFacts.loopingSound (run (mount initialValues) events)).
  { generalize (mount_looping initialValues Hdraft).
    generalize (mount initialValues) as s.
    induction events as [|e events IH]; intros s Hs; [exact Hs|].
    cbn. apply IH. now apply step_looping. }
  split; [exact H | exact H].
Qed.

End Looping.

(** Looping is ticked on a start frame; when the frame is removed the
    flag is off again. *)
Lemma looping_needs_start_frame_witness :
  PromptForm.isLooping
    (PromptForm.run (PromptForm.mount None)
       [PromptForm.ToggleModeSelector; PromptForm.SelectMode FRAMES_TO_VIDEO;
        PromptForm.StartFrameSelected Samples.frame;
        PromptForm.LoopingChanged true]) = true
  /\ FormFacts.loopingSound
       (PromptForm.run (PromptForm.mount None)
          [PromptForm.ToggleModeSelector;
           PromptForm.SelectMode FRAMES_TO_VIDEO;
           PromptForm.StartFrameSelected Samples.frame;
           PromptForm.LoopingChanged true; PromptForm.StartFrameRemoved]).
Proof.
  split; [vm_compute; reflexivity|].
  apply (looping_needs_start_frame None). exact I.
Defined.

(** ** White-space prompts, and modes whose result can be extended *)

Section GateAndExtend.
Import PromptForm.



End GateAndExtend.



(** ** Reading an upload *)

Section Reading.
Import FileReading.

Lemma split_head (sep : ascii) (s : string) :
  exists field fields, split sep s = field :: fields.
Proof.
  induction s as [|c s IH]; cbn [split]; [now eexists; eexists|].
  destruct (Ascii.eqb c sep); [now eexists; eexists|].
  destruct IH as (field & fields & ->). now eexists; eexists.
Qed.

Lemma split_commaFree (s : string) :
  commaFree s = true -> split "," s = [s].
Proof.
  induction s as [|c s IH]; cbn [commaFree split]; [reflexivity|].
  intros H. apply andb_true_iff in H. destruct H as [Hc Hs].
  apply negb_true_iff in Hc. rewrite Hc, (IH Hs). reflexivity.
Qed.

Lemma split_at_comma (header rest : string) :
  commaFree header = true ->
  split "," (header ++ String "," rest) = header :: split "," rest.
Proof.
  induction header as [|c header IH]; cbn [commaFree]; intros H.
  - reflexivity.
  - apply andb_true_iff in H. destruct H as [Hc Hs].
    apply negb_true_iff in Hc.
    cbn [append split]. rewrite Hc, (IH Hs). reflexivity.
Qed.

(** Every text is some comma-free header, alone or followed by a comma. *)
Lemma first_comma (s : string) :
  commaFree s = true
  \/ exists header rest,
       s = header ++ String "," rest /\ commaFree header = true.
Proof.
  induction s as [|c s IH]; [now left|].
  destruct (Ascii.eqb c ",") eqn:Hc.
  - right. exists "", s. apply Ascii.eqb_eq in Hc. now subst.
  - destruct IH as [Hfree|(header & rest & -> & Hfree)].
    + left. cbn. now rewrite Hc.
    + right. exists (String c header), rest. split; [reflexivity|].
      cbn. now rewrite Hc.
Qed.

(** X14. [fileToBase64] keeps what stands between the first comma of the
    data URL and the next one.  For a URL made of a comma-free header, a
    comma and a comma-free body it yields the file with that body, unless
    the body is empty, in which case it fails with "Failed to read file
    as base64."; it fails in the same way for a result without any comma.
    Whenever it succeeds, the payload holds the file that was read and a
    base64 text that is neither empty nor contains a comma. *)
Theorem fileToBase64_reads_body
    {T : Type} (wrap : File -> string -> T) (file : File) :
  (forall header body,
     commaFree header = true -> commaFree body = true ->
     fileToBase64 wrap file (Loaded (header ++ String "," body))
     = if JsString.isEmpty body
       then App.Rejected (App.ErrorObject "Failed to read file as base64.")
       else App.Fulfilled (wrap file body))
  /\ (forall result,
        commaFree result = true ->
        fileToBase64 wrap file (Loaded result)
        = App.Rejected (App.ErrorObject "Failed to read file as base64."))
  /\ (forall outcome payload,
        fileToBase64 wrap file outcome = App.Fulfilled payload ->
        exists base64,
          payload = wrap file base64
          /\ JsString.isEmpty base64 = false
          /\ commaFree base64 = true).
Proof.
  unfold fileToBase64. split; [|split].
  - intros header body Hheader Hbody.
    rewrite split_at_comma, split_commaFree by assumption. reflexivity.
  - intros result Hfree. now rewrite split_commaFree.
  - intros [result|] payload; [|discriminate].
    destruct (first_comma result) as [Hfree|(header & rest & -> & Hheader)].
    + now rewrite split_commaFree.
    + rewrite split_at_comma by assumption. cbn [nth_error].
      destruct (first_comma rest) as [Hfree|(body & more & -> & Hbody)].
      * rewrite split_commaFree by assumption.
        destruct (JsString.isEmpty rest) eqn:Hempty; [discriminate|].
        intros H. inversion H. now exists rest.
      * rewrite split_at_comma by assumption.
        destruct (JsString.isEmpty body) eqn:Hempty; [discriminate|].
        intros H. inversion H. now exists body.
Qed.

End Reading.

(** A PNG data URL gives its base64 body. *)
Lemma fileToBase64_reads_body_witness :
  FileReading.fileToImageFile "frame.png"
    (FileReading.Loaded ("data:image/png;base64" ++ String "," "iVBORw0KGgo="))
  = if JsString.isEmpty "iVBORw0KGgo="
    then App.Rejected (App.ErrorObject "Failed to read file as base64.")
    else App.Fulfilled (mkImageFile "frame.png" "iVBORw0KGgo=").
Proof.
  apply (proj1 (fileToBase64_reads_body mkImageFile "frame.png"));
    reflexivity.
Defined.

(** ** Removing a reference image *)

Section References.
Import PromptForm.

Lemma removeAt_nth {A : Type} (l : list A) (i j : nat) :
  nth_error (removeAt i l) j
  = if j <? i then nth_error l j else nth_error l (S j).
Proof.
  revert i j. induction l as [|x l IH]; intros i j.
  - replace (removeAt i []) with (@nil A) by now destruct i.
    destruct (j <? i); destruct j; reflexivity.
  - destruct i as [|i]; [reflexivity|].
    destruct j as [|j]; [reflexivity|].
    cbn [removeAt nth_error]. rewrite IH.
    change (S j <? S i) with (j <? i). reflexivity.
Qed.

Lemma removeAt_length {A : Type} (l : list A) (i : nat) :
  i < List.length l -> List.length (removeAt i l) = List.length l - 1.
Proof.
  revert i. induction l as [|x l IH]; intros i Hi; [cbn in Hi; lia|].
  destruct i as [|i]; cbn [removeAt List.length]; [lia|].
  cbn in Hi. rewrite IH by lia. lia.
Qed.

(** X15. Removing a reference image through its card takes out that one
    image and nothing else: the images before it stay where they are, the
    ones after it move up by one place, the count drops by one, and no
    other field of the form changes. *)
Theorem reference_removed (s : FormState) (i : nat) :
  offered (ReferenceRemoved i) s = true ->
  List.length (referenceImages (step s (ReferenceRemoved i)))
  = List.length (referenceImages s) - 1
  /\ (forall j,
        nth_error (referenceImages (step s (ReferenceRemoved i))) j
        = if j <? i
          then nth_error (referenceImages s) j
          else nth_error (referenceImages s) (S j))
  /\ step s (ReferenceRemoved i)
     = setReferenceImages (removeAt i (referenceImages s)) s.
Proof.
  intros Hoffered.
  assert (Hstep : step s (ReferenceRemoved i)
                  = setReferenceImages (removeAt i (referenceImages s)) s).
  { unfold step. rewrite Hoffered. cbn [handle].
    assert (Hsame : generationMode
                      (setReferenceImages (removeAt i (referenceImages s)) s)
                    = generationMode s) by reflexivity.
    rewrite Hsame.
    assert (Hrefl : GenerationMode_eqb (generationMode s) (generationMode s)
                    = true) by now apply GenerationMode_eqb_eq.
    now rewrite Hrefl. }
  rewrite Hstep. cbn [referenceImages setReferenceImages].
  split; [|split; [|reflexivity]].
  - apply removeAt_length.
    unfold offered in Hoffered. rewrite !andb_true_iff in Hoffered.
    destruct Hoffered as [_ Hpresent].
    apply nth_error_Some.
    now destruct (nth_error (referenceImages s) i).
  - intros j. apply removeAt_nth.
Qed.

End References.

(** Two references are uploaded and the first one is removed: the second
    is now the first. *)
Lemma reference_removed_witness :
  nth_error
    (PromptForm.referenceImages
       (PromptForm.step
          (PromptForm.run (Samples.formIn REFERENCES_TO_VIDEO)
             [PromptForm.ReferenceSelected Samples.portrait;
              PromptForm.ReferenceSelected Samples.frame])
          (PromptForm.ReferenceRemoved 0))) 0
  = if 0 <? 0
    then nth_error
           (PromptForm.referenceImages
              (PromptForm.run (Samples.formIn REFERENCES_TO_VIDEO)
                 [PromptForm.ReferenceSelected Samples.portrait;
                  PromptForm.ReferenceSelected Samples.frame])) 0
    else nth_error
           (PromptForm.referenceImages
              (PromptForm.run (Samples.formIn REFERENCES_TO_VIDEO)
                 [PromptForm.ReferenceSelected Samples.portrait;
                  PromptForm.ReferenceSelected Samples.frame])) 1.
Proof.
  apply (reference_removed
           (PromptForm.run (Samples.formIn REFERENCES_TO_VIDEO)
              [PromptForm.ReferenceSelected Samples.portrait;
               PromptForm.ReferenceSelected Samples.frame]) 0).
  vm_compute. reflexivity.
Defined.

(** ** The player under any events *)

Section Player.
Import VideoResult.

Lemma stopped_inStep (props : Props) (s : PlaybackState) :
  isPlayingStory s = false -> PlayerFacts.inStep props s.
Proof. unfold PlayerFacts.inStep. congruence. Qed.

Lemma step_inStep (props : Props) (s : PlaybackState) (e : Event) :
  PlayerFacts.inStep props s -> PlayerFacts.inStep props (step props s e).
Proof.
  intros Hs. unfold step.
  destruct (offered props e) eqn:Hoffered; [|exact Hs].
  destruct s as [playing index viewing].
  destruct e as [| |segment]; cbn [handle].
  - unfold handleVideoEnded. cbn [isPlayingStory storyIndex].
    destruct playing.
    + destruct (Hs eq_refl) as (Hindex & Hview & Hlen).
      cbn [storyIndex isPlayingStory viewingSegment] in Hindex, Hview.
      destruct (index <? List.length (timeline props) - 1) eqn:Hmore.
      * apply Nat.ltb_lt in Hmore.
        cbn -[Nat.ltb Nat.eqb nth_error].
        replace (index + 1 =? index) with false
          by (symmetry; apply Nat.eqb_neq; lia).
        cbn -[Nat.ltb nth_error]. unfold playbackEffect.
        cbn -[Nat.ltb nth_error].
        replace (index + 1 <? List.length (timeline props)) with true
          by (symmetry; apply Nat.ltb_lt; lia).
        destruct (nth_error (timeline props) (index + 1)) as [next|] eqn:Hnext;
          [|apply nth_error_None in Hnext; lia].
        intros _. cbn. split; [lia|]. split; [exact Hnext | exact Hlen].
      * apply stopped_inStep. cbn -[Nat.eqb].
        now destruct (0 =? index).
    + apply stopped_inStep. cbn -[Nat.eqb]. now rewrite ?Nat.eqb_refl.
  - cbn [offered] in Hoffered. unfold playStoryOffered in Hoffered.
    apply Nat.ltb_lt in Hoffered.
    unfold togglePlayStory. cbn [isPlayingStory].
    destruct playing.
    + apply stopped_inStep. cbn -[Nat.eqb]. now rewrite ?Nat.eqb_refl.
    + cbn -[Nat.ltb nth_error Nat.eqb]. unfold playbackEffect.
      cbn -[Nat.ltb nth_error].
      replace (0 <? List.length (timeline props)) with true
        by (symmetry; apply Nat.ltb_lt; lia).
      destruct (nth_error (timeline props) 0) as [first|] eqn:Hfirst;
        [|apply nth_error_None in Hfirst; lia].
      intros _. cbn. split; [lia|]. split; [exact Hfirst | lia].
  - unfold selectSegment. cbn [isPlayingStory].
    destruct playing.
    + cbn -[Nat.eqb]. now rewrite ?Nat.eqb_refl.
    + apply stopped_inStep. cbn -[Nat.eqb]. now rewrite ?Nat.eqb_refl.
Qed.

(** X16. Whatever is clicked and whenever a video ends, from the moment
    the player is mounted: while the story plays there are two scenes or
    more, the index lies inside the timeline, and the scene on screen is
    the one at the index.  The heading "Playing Scene i/n" therefore
    never counts past the last scene, and a click on a storyboard card
    cannot pull the screen away from the scene that is playing. *)
Theorem playback_stays_in_step (props : Props) (events : list Event) :
  isPlayingStory (run props (mount props) events) = true ->
  storyIndex (run props (mount props) events) < List.length (timeline props)
  /\ nth_error (timeline props)
       (storyIndex (run props (mount props) events))
     = Some (viewingSegment (run props (mount props) events))
  /\ 2 <= List.length (timeline props).
Proof.
  change (PlayerFacts.inStep props (run props (mount props) events)).
  assert (Hmount : PlayerFacts.inStep props (mount props))
    by now apply stopped_inStep.
  revert Hmount. generalize (mount props) as s.
  induction events as [|e events IH]; intros s Hs; [exact Hs|].
  cbn. apply IH. now apply step_inStep.
Qed.

(** X17. Stopping a story that plays, at whatever scene, shows the
    current segment at once: after the click on play, [k] "scene ended"
    signals with [k] below the number of scenes and a click on stop, the
    story is off and the scene viewed is the current segment.  The index
    is left where it was; the next click on play starts at 0 again. *)
Theorem stop_shows_current
    (props : Props) (s0 : PlaybackState) (k : nat) :
  2 <= List.length (timeline props) ->
  isPlayingStory s0 = false ->
  k < List.length (timeline props) ->
  run props s0 (Rules.storyEvents k ++ [PlayStoryClicked])
  = mkPlaybackState false k (currentSegment props)
  /\ storyIndex
       (run props s0
          (Rules.storyEvents k ++ [PlayStoryClicked; PlayStoryClicked])) = 0
  /\ isPlayingStory
       (run props s0
          (Rules.storyEvents k ++ [PlayStoryClicked; PlayStoryClicked]))
     = true.
Proof.
  intros Henough Hstopped Hk.
  destruct (playing_at props s0 Henough Hstopped k Hk)
    as (segment & Hnth & Hstate).
  assert (Hoffered : playStoryOffered props = true)
    by now apply play_offered.
  assert (Hstop : run props s0 (Rules.storyEvents k ++ [PlayStoryClicked])
                  = mkPlaybackState false k (currentSegment props)).
  { rewrite run_snoc, Hstate. unfold step. cbn [offered].
    rewrite Hoffered. cbn -[Nat.eqb]. now rewrite ?Nat.eqb_refl. }
  split; [exact Hstop|].
  change [PlayStoryClicked; PlayStoryClicked]
    with ([PlayStoryClicked] ++ [PlayStoryClicked])%list.
  rewrite app_assoc, run_snoc, Hstop. unfold step. cbn [offered].
  rewrite Hoffered. cbn -[Nat.ltb nth_error Nat.eqb].
  unfold playbackEffect. cbn -[Nat.ltb nth_error].
  destruct (0 <? List.length (timeline props));
    [destruct (nth_error (timeline props) 0)|]; split; reflexivity.
Qed.

End Player.

(** Three scenes: the story is stopped at the second one. *)
Lemma stop_shows_current_witness :
  VideoResult.run Samples.player (VideoResult.mount Samples.player)
    (Rules.storyEvents 1 ++ [VideoResult.PlayStoryClicked])
  = VideoResult.mkPlaybackState false 1
      (VideoResult.currentSegment Samples.player).
Proof.
  apply (stop_shows_current Samples.player
           (VideoResult.mount Samples.player) 1).
  - vm_compute. lia.
  - reflexivity.
  - vm_compute. lia.
Defined.

(** Clicks and signals in any order on three scenes: still in step. *)
Lemma playback_stays_in_step_witness :
  VideoResult.storyIndex
    (VideoResult.run Samples.player (VideoResult.mount Samples.player)
       [VideoResult.PlayStoryClicked; VideoResult.VideoEnded;
        VideoResult.SegmentClicked Samples.lastScene])
  < List.length (VideoResult.timeline Samples.player).
Proof.
  apply (playback_stays_in_step Samples.player
           [VideoResult.PlayStoryClicked; VideoResult.VideoEnded;
            VideoResult.SegmentClicked Samples.lastScene]).
  vm_compute. reflexivity.
Defined.

(** ** Error text with something around it *)

Section Context.
Import JsString.

Lemma append_assoc (a b c : string) : (a ++ b) ++ c = a ++ (b ++ c).
Proof. induction a as [|x a IH]; cbn; [reflexivity | now rewrite IH]. Qed.

Lemma includes_context (s pat before rest : string) :
  includes s pat = true -> includes (before ++ s ++ rest) pat = true.
Proof.
  rewrite !StringFacts.includes_split.
  intros (a & b & ->). exists (before ++ a), (b ++ rest).
  now rewrite !append_assoc.
Qed.

Ltac settle_class :=
  split; intros H; cbn in H |- *; try reflexivity;
  unfold App.invalidKeyMessage, App.modelNotFoundMessage in H; discriminate.

(** X18. A credential error stays one when the provider's text arrives
    with something in front of it or behind it: if an error text raises
    the key dialog, so does every text that contains it, and if it is
    reported as "model not found", so is every text that contains it.
    Only a generic failure can change its class by added text. *)
Theorem classification_survives_context (raw before rest : string) :
  (snd (App.classifyError (App.ErrorObject raw)) = true ->
   snd (App.classifyError (App.ErrorObject (before ++ raw ++ rest))) = true)
  /\ (fst (App.classifyError (App.ErrorObject raw)) = App.modelNotFoundMessage
      -> fst (App.classifyError (App.ErrorObject (before ++ raw ++ rest)))
         = App.modelNotFoundMessage).
Proof.
  unfold App.classifyError. cbn [App.rawMessage].
  pose proof (includes_context raw "Requested entity was not found."
                before rest) as Hfound.
  pose proof (includes_context raw "API_KEY_INVALID" before rest) as Hkey.
  pose proof (includes_context raw "API key not valid" before rest) as Hvalid.
  pose proof (includes_context raw "403" before rest) as Hcode.
  pose proof (includes_context (toLowerCase raw) "permission denied"
                (toLowerCase before) (toLowerCase rest)) as Hdenied.
  rewrite <- !StringFacts.toLowerCase_append in Hdenied.
  destruct (includes raw "Requested entity was not found.").
  - rewrite (Hfound eq_refl). split; reflexivity.
  - destruct (includes raw "API_KEY_INVALID").
    { rewrite (Hkey eq_refl).
      destruct (includes (before ++ raw ++ rest) _); settle_class. }
    destruct (includes raw "API key not valid").
    { rewrite (Hvalid eq_refl), !orb_true_r.
      destruct (includes (before ++ raw ++ rest) _); settle_class. }
    destruct (includes (toLowerCase raw) "permission denied").
    { rewrite (Hdenied eq_refl), !orb_true_r.
      destruct (includes (before ++ raw ++ rest) _); settle_class. }
    destruct (includes raw "403").
    { rewrite (Hcode eq_refl), !orb_true_r.
      destruct (includes (before ++ raw ++ rest) _); settle_class. }
    settle_class.
Qed.

End Context.

(** The provider's text wrapped in a JSON error body is still a key
    error. *)
Lemma classification_survives_context_witness :
  snd (App.classifyError
         (App.ErrorObject
            ("{'error': '" ++ "API key not valid. Please pass a valid API key."
             ++ "'}"))) = true.
Proof.
  apply (proj1 (classification_survives_context
                  "API key not valid. Please pass a valid API key."
                  "{'error': '" "'}")).
  reflexivity.
Defined.

(** ** What is on screen, and which scenes have sound *)

Section OnScreen.
Import App.

(** X19. In every session the main area shows the form, the result of
    the current segment or an error with its message, according to the
    state: in Success it is the result, with the segment the pointer
    finds in the timeline, and in Error it is the error screen with the
    message held.  The "data is missing" notice and the empty main area
    are never shown. *)
Theorem screen_is_never_empty (w : World) (events : list Session.Event) :
  Screens.render (Session.session w events) <> Screens.DataMissing
  /\ Screens.render (Session.session w events) <> Screens.Nothing
  /\ (appState (Session.session w events) = SUCCESS ->
      exists segment,
        currentSegment (Session.session w events) = Some segment
        /\ Screens.render (Session.session w events)
           = Screens.Result segment (canExtend (Session.session w events)))
  /\ (appState (Session.session w events) = ERROR ->
      exists message,
        errorMessage (Session.session w events) = Some message
        /\ Screens.render (Session.session w events)
           = Screens.ErrorScreen message).
Proof.
  pose proof (session_consistent w events) as Hconsistent.
  pose proof (consistent_success_segment _ Hconsistent) as Hsuccess.
  destruct Hconsistent as (_ & _ & _ & _ & _ & Herror & Htext).
  unfold Screens.render.
  destruct (appState (Session.session w events)) eqn:Hstate.
  - repeat split; discriminate.
  - repeat split; discriminate.
  - destruct (Hsuccess eq_refl) as (segment & latest & Hcur & _).
    rewrite Hcur. repeat split; try discriminate.
    intros _. now exists segment.
  - destruct (errorMessage (Session.session w events)) as [message|] eqn:Hm;
      [|now destruct (proj1 Herror eq_refl)].
    cbn [truthyText textOrEmpty]. rewrite (Htext message eq_refl).
    cbn [negb]. repeat split; try discriminate.
    intros _. now exists message.
Qed.

Lemma handleGenerate_audio
    (w : World) (params : GenerateVideoParams.t) (s : AppData) :
  Forall Screens.audioMatches (timeline s) ->
  Forall Screens.audioMatches (timeline (fst (handleGenerate w params s))).
Proof.
  intros Hs. unfold handleGenerate.
  destruct (credentialGuard w) as [[|] checked]; cbn [negb fst];
    [|exact Hs].
  unfold wantsSpeech, truthySpeaker. rewrite andb_true_r.
  destruct (promiseAll _ _ _) as [[v sp]|e] eqn:Hjoin.
  - cbn. apply Forall_app. split; [exact Hs|].
    constructor; [|constructor].
    unfold Screens.audioMatches. cbn.
    destruct (truthyText (GenerateVideoParams.dialogue params)
              && negb (Speaker_eqb (GenerateVideoParams.speaker params) NONE));
      destruct (generateVideo w params);
      try destruct (generateSpeech w
                      (textOrEmpty (GenerateVideoParams.dialogue params))
                      (GenerateVideoParams.speaker params));
      cbn in Hjoin; try discriminate; inversion Hjoin; subst; cbn;
      split; congruence.
  - destruct (classifyError e) as [message [|]]; exact Hs.
Qed.

Lemma session_step_audio (s : AppData) (e : Session.Event) :
  Forall Screens.audioMatches (timeline s) ->
  Forall Screens.audioMatches (timeline (Session.step s e)).
Proof.
  intros Hs. destruct e as [e|w selector].
  - destruct e; cbn [Session.step step].
    + now apply handleGenerate_audio.
    + unfold handleRetry. destruct (lastConfig s);
        [now apply handleGenerate_audio | exact Hs].
    + constructor.
    + unfold handleAddScene. destruct (lastConfig s);
        [exact Hs | constructor].
    + unfold handleTryAgainFromError. destruct (lastConfig s);
        [exact Hs | constructor].
    + unfold handleExtend.
      destruct (lastConfig s), (lastVideoBlob s), (lastVideoObject s);
        try destruct thrown; exact Hs.
  - cbn [Session.step]. unfold Session.handleApiKeyDialogContinue.
    assert (Hretry : Forall Screens.audioMatches
                       (timeline
                          (fst (handleRetry w (setShowApiKeyDialog false s))))).
    { unfold handleRetry. cbn [lastConfig setShowApiKeyDialog].
      destruct (lastConfig s);
        [now apply handleGenerate_audio | exact Hs]. }
    destruct (aistudio w), selector; cbn [fst]; try exact Hs;
      destruct (AppState_eqb (appState s) ERROR && present (lastConfig s));
      cbn [fst]; assumption.
Qed.

Lemma session_audio (w : World) (events : list Session.Event) :
  Forall Screens.audioMatches (timeline (Session.session w events)).
Proof.
  unfold Session.session.
  assert (Hstart : Forall Screens.audioMatches (timeline (fst (start w)))).
  { unfold start, checkApiKey.
    destruct (aistudio w) as [[[|]|e]|]; constructor. }
  revert Hstart. generalize (fst (start w)) as s.
  induction events as [|e events IH]; intros s Hs; [exact Hs|].
  cbn. apply IH. now apply session_step_audio.
Qed.

(** X20. In every session, every segment of the timeline has an audio
    track exactly when it has a non-empty dialogue and a speaker other
    than NONE: a scene with a spoken line is never silent, and a scene
    without one never carries sound. *)
Theorem audio_iff_spoken_line
    (w : World) (events : list Session.Event) (segment : StorySegment.t) :
  In segment (timeline (Session.session w events)) ->
  (StorySegment.audioUrl segment <> None <->
   truthyText (StorySegment.dialogue segment)
   && negb (Speaker_eqb (StorySegment.speaker segment) NONE) = true).
Proof.
  intros Hin.
  pose proof (session_audio w events) as Hall.
  rewrite Forall_forall in Hall. exact (Hall segment Hin).
Qed.

End OnScreen.

(** After a first scene and a second attempt that fails, the error
    screen carries the message of the failure. *)
Lemma screen_is_never_empty_witness :
  exists message,
    App.errorMessage
      (Session.session (Samples.allGood "1700000000001")
         [Session.Core (App.Generate (Samples.allGood "1700000000001")
                          (Samples.textConfig P720));
          Session.Core (App.Retry Samples.speechFails)]) = Some message
    /\ Screens.render
         (Session.session (Samples.allGood "1700000000001")
            [Session.Core (App.Generate (Samples.allGood "1700000000001")
                             (Samples.textConfig P720));
             Session.Core (App.Retry Samples.speechFails)])
       = Screens.ErrorScreen message.
Proof.
  apply (screen_is_never_empty (Samples.allGood "1700000000001")
           [Session.Core (App.Generate (Samples.allGood "1700000000001")
                            (Samples.textConfig P720));
            Session.Core (App.Retry Samples.speechFails)]).
  vm_compute. reflexivity.
Defined.

(** The scene with Elena's line has an audio track. *)
Lemma audio_iff_spoken_line_witness :
  StorySegment.audioUrl (Samples.scene "1700000000001") <> None.
Proof.
  apply (audio_iff_spoken_line (Samples.allGood "1700000000001")
           [Session.Core (App.Generate (Samples.allGood "1700000000001")
                            (Samples.textConfig P720))]
           (Samples.scene "1700000000001")).
  - vm_compute. left. reflexivity.
  - reflexivity.
Defined.

(** ** Attempts that overlap *)

Section Overlapping.
Import App.

(** An attempt run to its end is its two pieces, one after the other. *)
Lemma handleGenerate_cut
    (w : World) (params : GenerateVideoParams.t) (s : AppData) :
  fst (handleGenerate w params s)
  = if fst (credentialGuard w)
    then Overlap.settle w params (Overlap.begin w params s)
    else Overlap.begin w params s.
Proof.
  unfold handleGenerate, Overlap.settle, Overlap.begin, Overlap.joined.
  destruct (credentialGuard w) as [[|] checked]; cbn [negb fst];
    [|reflexivity].
  destruct (promiseAll _ _ _) as [[v sp]|e]; [reflexivity|].
  destruct (classifyError e) as [message [|]]; reflexivity.
Qed.

Lemma sound_start (w : World) : Overlap.sound (fst (start w)).
Proof.
  unfold start, checkApiKey.
  destruct (aistudio w) as [[[|]|e]|];
    unfold Overlap.sound, Rules.pointsToLast; cbn;
    repeat split; try discriminate; try reflexivity; try congruence.
Qed.

Lemma begin_sound
    (w : World) (params : GenerateVideoParams.t) (s : AppData) :
  Overlap.sound s -> Overlap.sound (Overlap.begin w params s).
Proof.
  intros (Hpoint & Hblob & Hobject & Hsuccess & Herror & Hquiet & Htext).
  unfold Overlap.begin.
  destruct (fst (credentialGuard w));
    unfold Overlap.sound, Rules.pointsToLast in *; cbn;
    repeat split; try assumption; try discriminate; try tauto;
    try congruence.
Qed.

Lemma settle_sound
    (w : World) (params : GenerateVideoParams.t) (s : AppData) :
  Overlap.sound s -> Overlap.sound (Overlap.settle w params s).
Proof.
  intros (Hpoint & Hblob & Hobject & Hsuccess & Herror & Hquiet & Htext).
  unfold Overlap.settle.
  destruct (Overlap.joined w params) as [[v sp]|e].
  - unfold Overlap.sound. split.
    + unfold Rules.pointsToLast. cbn -[Rules.mostRecent].
      now rewrite mostRecent_snoc.
    + pose proof (snoc_not_nil (timeline s)) as Hsnoc. cbn.
      split; [split; [intros H; now apply Hsnoc in H | discriminate]|].
      split; [split; [intros H; now apply Hsnoc in H | discriminate]|].
      split; [intros _; apply Hsnoc|].
      split; [discriminate|].
      split; [intros [H|H]; discriminate | exact Htext].
  - pose proof (classifyError_message e) as Hmessage.
    destruct (classifyError e) as [message [|]];
      unfold Overlap.sound, Rules.pointsToLast in *; cbn in *;
      (split; [exact Hpoint|]); (split; [exact Hblob|]);
      (split; [exact Hobject|]); (split; [discriminate|]);
      (split; [discriminate|]);
      (split; [intros [H|H]; discriminate|]);
      intros m Hm; inversion Hm; subst; exact Hmessage.
Qed.

Lemma quiet_form_sound
    (draft : option GenerateVideoParams.t) (s : AppData) :
  Overlap.sound s ->
  Overlap.sound
    (setErrorMessage None (setAppState IDLE (setInitialFormValues draft s))).
Proof.
  intros (Hpoint & Hblob & Hobject & _ & _ & _ & _).
  unfold Overlap.sound, Rules.pointsToLast in *. cbn.
  repeat split; try assumption; try discriminate; try tauto;
    try congruence.
Qed.

Lemma handleNewVideo_sound (s : AppData) : Overlap.sound (handleNewVideo s).
Proof.
  unfold Overlap.sound, Rules.pointsToLast. cbn.
  repeat split; try discriminate; try reflexivity; try congruence.
Qed.

Lemma handleExtend_sound (thrown : option Thrown) (s : AppData) :
  Overlap.sound s -> Overlap.sound (handleExtend thrown s).
Proof.
  intros Hs. unfold handleExtend.
  destruct (lastConfig s), (lastVideoBlob s), (lastVideoObject s);
    try exact Hs.
  destruct thrown as [error|]; [|now apply quiet_form_sound].
  destruct Hs as (Hpoint & Hblob & Hobject & _ & _ & _ & _).
  unfold Overlap.sound, Rules.pointsToLast in *. cbn.
  repeat split; try assumption; try discriminate; try tauto;
    try congruence.
  - intros [H|H]; discriminate.
  - intros m Hm. inversion Hm. reflexivity.
Qed.

Lemma overlap_step_sound (st : Overlap.State) (e : Overlap.Event) :
  Overlap.sound (Overlap.app st) ->
  Overlap.sound (Overlap.app (Overlap.step st e)).
Proof.
  intros Hs. destruct e; cbn [Overlap.step].
  - now apply begin_sound.
  - destruct (nth_error (Overlap.inFlight st) k) as [[w params]|];
      [now apply settle_sound | exact Hs].
  - exact Hs.
  - apply handleNewVideo_sound.
  - cbn [Overlap.app]. unfold handleAddScene.
    destruct (lastConfig (Overlap.app st));
      [now apply quiet_form_sound | apply handleNewVideo_sound].
  - cbn [Overlap.app]. unfold handleTryAgainFromError.
    destruct (lastConfig (Overlap.app st));
      [now apply quiet_form_sound | apply handleNewVideo_sound].
  - now apply handleExtend_sound.
Qed.

Lemma overlap_session_sound (w : World) (events : list Overlap.Event) :
  Overlap.sound (Overlap.session w events).
Proof.
  unfold Overlap.session, Overlap.run.
  assert (Hstart : Overlap.sound
                     (Overlap.app (Overlap.mkState (fst (start w)) [])))
    by apply sound_start.
  revert Hstart. generalize (Overlap.mkState (fst (start w)) []) as st.
  induction events as [|e events IH]; intros st Hs; [exact Hs|].
  cbn. apply IH. now apply overlap_step_sound.
Qed.

(** A pointer that names the last entry finds, in a timeline that is
    not empty, a segment with the id of that entry. *)
Lemma pointer_finds_segment (s : AppData) :
  Rules.pointsToLast s ->
  timeline s <> [] ->
  exists segment latest,
    currentSegment s = Some segment
    /\ In segment (timeline s)
    /\ Rules.mostRecent (timeline s) = Some latest
    /\ StorySegment.id segment = StorySegment.id latest.
Proof.
  intros Hpoint Hsome.
  unfold Rules.pointsToLast in Hpoint. unfold currentSegment.
  destruct (Rules.mostRecent (timeline s)) as [latest|] eqn:Hlatest.
  - rewrite Hpoint. cbn [option_map].
    destruct (find_present
                (fun seg => String.eqb (StorySegment.id seg)
                              (StorySegment.id latest))
                (timeline s) latest)
      as (segment & Hfind & Hid & Hin).
    + now apply mostRecent_In.
    + apply String.eqb_refl.
    + exists segment, latest. split; [exact Hfind|]. split; [exact Hin|].
      split; [reflexivity|]. now apply String.eqb_eq.
  - exfalso. unfold Rules.mostRecent in Hlatest.
    apply nth_error_None in Hlatest.
    destruct (timeline s); [now apply Hsome|].
    cbn in Hlatest. lia.
Qed.

(** X2. Whatever the user does and however attempts overlap (a second
    one begun while the first is pending, a "new story" while one is in
    flight), whenever the application shows Success there is a current
    segment to show: the lookup of the pointer in the timeline finds a
    segment of the timeline with the id of its last entry, so the "data
    is missing" notice is never reached; and the retained blob and the
    retained video object are there.  The last config need not be: an
    attempt that ends after a "new story" leaves Success without one. *)
Theorem success_has_segment (w : World) (events : list Overlap.Event) :
  appState (Overlap.session w events) = SUCCESS ->
  (exists segment latest,
     currentSegment (Overlap.session w events) = Some segment
     /\ In segment (timeline (Overlap.session w events))
     /\ Rules.mostRecent (timeline (Overlap.session w events)) = Some latest
     /\ StorySegment.id segment = StorySegment.id latest)
  /\ lastVideoBlob (Overlap.session w events) <> None
  /\ lastVideoObject (Overlap.session w events) <> None.
Proof.
  intros Hstate.
  destruct (overlap_session_sound w events)
    as (Hpoint & Hblob & Hobject & Hsuccess & _).
  specialize (Hsuccess Hstate).
  split; [now apply pointer_finds_segment|].
  split; intros Hnone.
  - now apply Hsuccess, Hblob.
  - now apply Hsuccess, Hobject.
Qed.

(** X3. Whatever the user does and however attempts overlap: in the
    Error state an error message is held, a message that is held is
    never the empty string, and in the Idle and Loading states none is
    held.  A message can outlast the Error state only into Success, when
    an attempt fails and another, begun before, then succeeds. *)
Theorem error_message_by_state (w : World) (events : list Overlap.Event) :
  (appState (Overlap.session w events) = ERROR ->
   exists message,
     errorMessage (Overlap.session w events) = Some message
     /\ JsString.isEmpty message = false)
  /\ (appState (Overlap.session w events) = IDLE
      \/ appState (Overlap.session w events) = LOADING ->
      errorMessage (Overlap.session w events) = None)
  /\ errorMessage (Overlap.session w events) <> Some "".
Proof.
  destruct (overlap_session_sound w events)
    as (_ & _ & _ & _ & Herror & Hquiet & Htext).
  split; [|split].
  - intros Hstate. specialize (Herror Hstate).
    destruct (errorMessage (Overlap.session w events)) as [message|] eqn:Hm;
      [|contradiction].
    exists message. split; [reflexivity | now apply Htext].
  - exact Hquiet.
  - intros Hempty. apply Htext in Hempty. discriminate.
Qed.

End Overlapping.

(** Two attempts in flight, a new story between their ends: Success,
    with a segment to show and the artifact retained. *)
Lemma success_has_segment_witness :
  App.lastVideoBlob
    (Overlap.session (Samples.allGood "1700000000001") MoreSamples.lateSuccess)
  <> None
  /\ exists segment latest,
       App.currentSegment
         (Overlap.session (Samples.allGood "1700000000001")
            MoreSamples.lateSuccess) = Some segment
       /\ In segment
            (App.timeline
               (Overlap.session (Samples.allGood "1700000000001")
                  MoreSamples.lateSuccess))
       /\ Rules.mostRecent
            (App.timeline
               (Overlap.session (Samples.allGood "1700000000001")
                  MoreSamples.lateSuccess)) = Some latest
       /\ StorySegment.id segment = StorySegment.id latest.
Proof.
  destruct (success_has_segment (Samples.allGood "1700000000001")
              MoreSamples.lateSuccess) as (Hsegment & Hblob & _).
  - vm_compute. reflexivity.
  - split; [exact Hblob | exact Hsegment].
Defined.

(** That run ends in Success with one scene and no last config. *)
Example late_success_without_config :
  App.appState
    (Overlap.session (Samples.allGood "1700000000001") MoreSamples.lateSuccess)
  = SUCCESS
  /\ App.lastConfig
       (Overlap.session (Samples.allGood "1700000000001")
          MoreSamples.lateSuccess) = None
  /\ List.length
       (App.timeline
          (Overlap.session (Samples.allGood "1700000000001")
             MoreSamples.lateSuccess)) = 1.
Proof. vm_compute. repeat split. Qed.

(** The service rejects the key: Error, with a message. *)
Lemma error_message_by_state_witness :
  exists message,
    App.errorMessage
      (Overlap.session MoreSamples.keyRejected
         [Overlap.Begin MoreSamples.keyRejected (Samples.textConfig P720);
          Overlap.Settle 0]) = Some message
    /\ JsString.isEmpty message = false.
Proof.
  apply (proj1 (error_message_by_state MoreSamples.keyRejected
                  [Overlap.Begin MoreSamples.keyRejected
                     (Samples.textConfig P720);
                   Overlap.Settle 0])).
  vm_compute. reflexivity.
Defined.

(** One attempt fails, another begun before it then succeeds: Success,
    with the message of the failure still held. *)
Example success_with_stale_message :
  App.appState
    (Overlap.session MoreSamples.keyRejected MoreSamples.failThenSucceed)
  = SUCCESS
  /\ App.errorMessage
       (Overlap.session MoreSamples.keyRejected MoreSamples.failThenSucceed)
     = Some App.invalidKeyMessage.
Proof. vm_compute. repeat split. Qed.
